(** * GHMonitoring: the task analytics engine

    A shallow embedding of [backend/src/services/task-processor.ts]
    (class [TaskProcessorService]) together with the data model of
    [types/task.ts], and the properties of the engine stated over it.

    Conventions of the embedding.
    - A JavaScript [Date] is its time value: an integer number of
      milliseconds since the epoch, modelled as [Z].  The invalid date
      (time value NaN) and the [TimeClip] range limit are not modelled.
    - The calendar functions behind [getFullYear], [getMonth], [getDate]
      and the constructor [new Date(y, m, d)] follow ECMA-262
      (clause "Date Objects"); the time zone of the host is its offset
      function [LocalTZA(t, isUTC)], in milliseconds, which may change
      with [t] as it does under daylight saving.
    - A string is a [string] of code units; [toUpperCase] acts on the
      letters a-z and leaves the other code units as they are.
    - [new Date()] reads the system clock: the clock is explicit state,
      the sequence of its future readings.
    - An array that is sorted in place lives in a store of arrays. *)

From Stdlib Require Import ZArith List String Ascii Bool Lia.
From Stdlib Require Import Permutation Sorted.
Import ListNotations.

Local Open Scope Z_scope.

(* ================================================================= *)
(** ** ECMAScript dates *)

Module ESDate.

(** A valid time value, in milliseconds since 1970-01-01T00:00:00Z. *)
Definition Date := Z.

Definition msPerDay : Z := 86400000.

Definition Day (t : Z) : Z := t / msPerDay.

Definition DaysInYear (y : Z) : Z :=
  if negb (y mod 4 =? 0) then 365
  else if negb (y mod 100 =? 0) then 366
  else if negb (y mod 400 =? 0) then 365
  else 366.

Definition DayFromYear (y : Z) : Z :=
  365 * (y - 1970) + (y - 1969) / 4 - (y - 1901) / 100 + (y - 1601) / 400.

Definition TimeFromYear (y : Z) : Z := msPerDay * DayFromYear y.

(** The year of a day number.  ECMA-262 specifies it as the largest [y]
    with [TimeFromYear y <= t]; this is the usual closed form, counting
    400-year, 100-year and 4-year cycles from 1 January 2001
    (see [YearFromTime_spec] for the specification). *)
Definition YearFromDay (d : Z) : Z :=
  let n := d - 11323 in
  let era := n / 146097 in
  let doe := n mod 146097 in
  let c := Z.min (doe / 36524) 3 in
  let doc := doe - 36524 * c in
  let q := doc / 1461 in
  let doq := doc mod 1461 in
  let yq := Z.min (doq / 365) 3 in
  2001 + 400 * era + 100 * c + 4 * q + yq.

Definition YearFromTime (t : Z) : Z := YearFromDay (Day t).

Definition InLeapYear (t : Z) : Z :=
  if DaysInYear (YearFromTime t) =? 365 then 0 else 1.

Definition DayWithinYear (t : Z) : Z :=
  Day t - DayFromYear (YearFromTime t).

(** Day within the year on which month [m] (0 = January) starts. *)
Definition monthStart (leap m : Z) : Z :=
  match m with
  | 0 => 0
  | 1 => 31
  | 2 => 59 + leap
  | 3 => 90 + leap
  | 4 => 120 + leap
  | 5 => 151 + leap
  | 6 => 181 + leap
  | 7 => 212 + leap
  | 8 => 243 + leap
  | 9 => 273 + leap
  | 10 => 304 + leap
  | _ => 334 + leap
  end.

Definition MonthFromTime (t : Z) : Z :=
  let d := DayWithinYear t in
  let leap := InLeapYear t in
  if d <? 31 then 0
  else if d <? 59 + leap then 1
  else if d <? 90 + leap then 2
  else if d <? 120 + leap then 3
  else if d <? 151 + leap then 4
  else if d <? 181 + leap then 5
  else if d <? 212 + leap then 6
  else if d <? 243 + leap then 7
  else if d <? 273 + leap then 8
  else if d <? 304 + leap then 9
  else if d <? 334 + leap then 10
  else 11.

Definition DateFromTime (t : Z) : Z :=
  let d := DayWithinYear t in
  let leap := InLeapYear t in
  match MonthFromTime t with
  | 0 => d + 1
  | 1 => d - 30
  | 2 => d - 58 - leap
  | 3 => d - 89 - leap
  | 4 => d - 119 - leap
  | 5 => d - 150 - leap
  | 6 => d - 180 - leap
  | 7 => d - 211 - leap
  | 8 => d - 242 - leap
  | 9 => d - 272 - leap
  | 10 => d - 303 - leap
  | _ => d - 333 - leap
  end.

(** [MakeDay]: the day number of day [date] of month [month] of [year];
    the time [t] it looks for is the first of month [mn] of year [ym]. *)
Definition MakeDay (year month date : Z) : Z :=
  let ym := year + month / 12 in
  let mn := month mod 12 in
  let leap := if DaysInYear ym =? 365 then 0 else 1 in
  DayFromYear ym + monthStart leap mn + date - 1.

Definition MakeTime (hour min sec ms : Z) : Z :=
  hour * 3600000 + min * 60000 + sec * 1000 + ms.

Definition MakeDate (day time : Z) : Z := day * msPerDay + time.

(** The time zone of the host: [LocalTZA t true] is the offset of
    local time from UTC, in milliseconds, in force at the instant [t];
    [LocalTZA t false] is the offset by which the local time value [t]
    is read.  Where a local time occurs twice or not at all, ECMA-262
    has it read with the offset before the transition. *)
Definition TimeZone := Z -> bool -> Z.

Section Host.
Variable LocalTZA : TimeZone.

Definition LocalTime (t : Z) : Z := t + LocalTZA t true.
Definition UTC (t : Z) : Z := t - LocalTZA t false.

Definition getTime (d : Date) : Z := d.
Definition getFullYear (d : Date) : Z := YearFromTime (LocalTime d).
Definition getMonth (d : Date) : Z := MonthFromTime (LocalTime d).
Definition getDate (d : Date) : Z := DateFromTime (LocalTime d).

(** [new Date(year, monthIndex, day)]: a year from 0 to 99 stands
    for 1900 + year; the time of day is 0:00 local time, read
    with the offset of that local time. *)
Definition newDateYMD (year month date : Z) : Date :=
  let yr := if (0 <=? year) && (year <=? 99) then 1900 + year else year in
  let finalDate := MakeDate (MakeDay yr month date) (MakeTime 0 0 0 0) in
  UTC finalDate.

(** The local calendar day of a date, as a day number. *)
Definition localDay (d : Date) : Z := Day (LocalTime d).
End Host.

End ESDate.

Import ESDate.


(* ================================================================= *)
(** ** JavaScript values used by the service *)

Module JS.

Local Open Scope nat_scope.

Definition toUpperCase_unit (c : ascii) : ascii :=
  let n := nat_of_ascii c in
  if (97 <=? n) && (n <=? 122) then ascii_of_nat (n - 32) else c.

(** [String.prototype.toUpperCase]. *)
Fixpoint toUpperCase (s : string) : string :=
  match s with
  | EmptyString => EmptyString
  | String c s' => String (toUpperCase_unit c) (toUpperCase s')
  end.

(** [!x] for [x : string | null]: [null] and the empty string are falsy. *)
Definition not_string (x : option string) : bool :=
  match x with
  | None => true
  | Some s => String.eqb s EmptyString
  end.

(** [!x] for [x : Date | null]: only [null] is falsy. *)
Definition not_date (x : option Date) : bool :=
  match x with
  | None => true
  | Some _ => false
  end.

(** [x?.toUpperCase()]: [None] is [undefined]. *)
Definition toUpperCase_opt (x : option string) : option string :=
  option_map toUpperCase x.

(** [v === lit] for a value that is a string or [undefined]. *)
Definition strict_eq (v : option string) (lit : string) : bool :=
  match v with
  | Some s => String.eqb s lit
  | None => false
  end.

End JS.

(* ================================================================= *)
(** ** The system clock *)

(** The clock is the sequence of the readings it will give: reading
    number [n] is the value of the [n]-th [new Date()] from here. *)
Definition Clock := nat -> Z.

Definition M (A : Type) : Type := Clock -> A * Clock.

Definition ret {A} (a : A) : M A := fun c => (a, c).

Definition bind {A B} (m : M A) (k : A -> M B) : M B :=
  fun c => let (a, c') := m c in k a c'.

Notation "x <- m ;; k" := (bind m (fun x => k))
  (at level 61, m at next level, right associativity).

(** [new Date()]. *)
Definition newDate : M Date :=
  fun c => (c 0%nat, fun n => c (S n)).

(** [Array.prototype.filter] with a predicate that reads the clock. *)
Fixpoint filterM {A} (p : A -> M bool) (l : list A) : M (list A) :=
  match l with
  | [] => ret []
  | x :: l' =>
      b <- p x ;;
      r <- filterM p l' ;;
      ret (if b then x :: r else r)
  end.

(** A clock that stands still. *)
Definition frozen (now : Z) : Clock := fun _ => now.

(* ================================================================= *)
(** ** Data model ([types/task.ts]) *)

Inductive TaskType := ISSUE | PULL_REQUEST | DRAFT_ISSUE.

Inductive TaskState := OPEN | CLOSED | MERGED.

Definition TaskState_eqb (a b : TaskState) : bool :=
  match a, b with
  | OPEN, OPEN | CLOSED, CLOSED | MERGED, MERGED => true
  | _, _ => false
  end.

Record Task := {
  id : string;
  githubId : string;
  title : string;
  number : Z;
  type : TaskType;
  state : TaskState;
  status : option string;
  repository : option string;
  assignees : list string;
  priority : option string;
  createdAt : Date;
  updatedAt : Date;
  dueDate : option Date;
  addedToProjectAt : option Date
}.

Record ByPriority := {
  p0 : nat;
  p1 : nat;
  noPriority : nat;
  p0List : list Task;
  p1List : list Task;
  noPriorityList : list Task
}.

Record TaskStats := {
  total : nat;
  open : nat;
  closed : nat;
  overdue : nat;
  overdueList : list Task;
  noTechHandoffETA : nat;
  noTechHandoffETAList : list Task;
  noTechHandoffETAByPriority : ByPriority;
  unassignedByPriority : ByPriority
}.

(* ================================================================= *)
(** ** [Map<string, Task[]>] *)

(** A JavaScript [Map] keeps its keys in insertion order: a list of
    entries with pairwise different keys, the oldest first. *)
Module JSMap.

Definition t := list (string * list Task).

Definition empty : t := [].

Fixpoint get (k : string) (m : t) : option (list Task) :=
  match m with
  | [] => None
  | (k', v) :: m' => if String.eqb k' k then Some v else get k m'
  end.

Definition has (k : string) (m : t) : bool :=
  match get k m with Some _ => true | None => false end.

(** [m.set(k, v)]: replaces the value of an existing key where it
    stands, puts a new key last. *)
Fixpoint set (k : string) (v : list Task) (m : t) : t :=
  match m with
  | [] => [(k, v)]
  | (k', v') :: m' =>
      if String.eqb k' k then (k', v) :: m' else (k', v') :: set k v m'
  end.

(** [m.get(k)!.push(x)]: the array stored under [k] grows by [x] at
    its end; a missing key makes [m.get(k)] undefined and the call a
    [TypeError], here [None]. *)
Definition push (k : string) (x : Task) (m : t) : option t :=
  match get k m with
  | Some arr => Some (set k (arr ++ [x]) m)
  | None => None
  end.

(** Number of tasks over all groups. *)
Fixpoint size_sum (m : t) : nat :=
  match m with
  | [] => 0%nat
  | (_, v) :: m' => (List.length v + size_sum m')%nat
  end.

End JSMap.

(* ================================================================= *)
(** ** Arrays that are sorted in place *)

Module Store.

Definition Ref := nat.

(** The arrays allocated so far; a reference is an index. *)
Definition t := list (list Task).

Definition read (r : Ref) (s : t) : option (list Task) := nth_error s r.

Definition alloc (a : list Task) (s : t) : Ref * t :=
  (List.length s, s ++ [a]).

Fixpoint write (r : Ref) (a : list Task) (s : t) : t :=
  match s, r with
  | [], _ => []
  | _ :: s', O => a :: s'
  | b :: s', S r' => b :: write r' a s'
  end.

End Store.

(** [Array.prototype.sort(compareFn)] on the elements: a stable sort.
    An element moves behind the ones the comparison puts before it
    ([compareFn(x, y) > 0]) and stays before the others.  The
    algorithm is the engine's choice; for a comparison that is a total
    preorder every stable sort gives this list
    (see [Array_sort_determined]). *)
Fixpoint sort_insert (compareFn : Task -> Task -> Z) (x : Task)
    (l : list Task) : list Task :=
  match l with
  | [] => [x]
  | y :: l' =>
      if compareFn x y <=? 0 then x :: y :: l'
      else y :: sort_insert compareFn x l'
  end.

Fixpoint Array_sort (compareFn : Task -> Task -> Z) (l : list Task)
    : list Task :=
  match l with
  | [] => []
  | x :: l' => sort_insert compareFn x (Array_sort compareFn l')
  end.

(* ================================================================= *)
(** ** [TaskProcessorService] *)

(** A [for (const x of xs)] loop whose body may throw. *)
Fixpoint for_of {A S} (xs : list A) (body : S -> A -> option S) (s : S)
    : option S :=
  match xs with
  | [] => Some s
  | x :: xs' =>
      match body s x with
      | Some s' => for_of xs' body s'
      | None => None
      end
  end.

Section Service.

(** The time zone of the host. *)
Variable LocalTZA : TimeZone.

(** [isOverdue(task)] *)
Definition isOverdue (task : Task) : M bool :=
  match dueDate task with
  | None => ret false
  | Some taskDueDate =>
      if TaskState_eqb (state task) CLOSED
         || TaskState_eqb (state task) MERGED
      then ret false
      else
        now <- newDate ;;
        let today :=
          newDateYMD LocalTZA (getFullYear LocalTZA now)
            (getMonth LocalTZA now) (getDate LocalTZA now) in
        let dueDate := taskDueDate in
        let dueDateOnly :=
          newDateYMD LocalTZA (getFullYear LocalTZA dueDate)
            (getMonth LocalTZA dueDate) (getDate LocalTZA dueDate) in
        ret (dueDateOnly <=? today)
  end.

(** The arrow functions of [calculateStats], in source order. *)
Definition isOpen (t : Task) : bool :=
  TaskState_eqb (state t) OPEN.

Definition isClosed (t : Task) : bool :=
  TaskState_eqb (state t) CLOSED || TaskState_eqb (state t) MERGED.

Definition isNoTechHandoffETA (t : Task) : bool :=
  TaskState_eqb (state t) OPEN && JS.not_date (dueDate t).

Definition noETA_isP0 (t : Task) : bool :=
  JS.strict_eq (JS.toUpperCase_opt (priority t)) "P0".

Definition noETA_isP1 (t : Task) : bool :=
  JS.strict_eq (JS.toUpperCase_opt (priority t)) "P1".

Definition noETA_isNoPriority (t : Task) : bool :=
  JS.not_string (priority t)
  || match priority t with
     | Some p =>
         negb (String.eqb (JS.toUpperCase p) "P0")
         && negb (String.eqb (JS.toUpperCase p) "P1")
     | None => false
     end.

Definition isUnassigned (t : Task) : bool :=
  TaskState_eqb (state t) OPEN && (List.length (assignees t) =? 0)%nat.

Definition unassigned_isP0 (t : Task) : bool :=
  JS.strict_eq (JS.toUpperCase_opt (priority t)) "P0".

Definition unassigned_isP1 (t : Task) : bool :=
  JS.strict_eq (JS.toUpperCase_opt (priority t)) "P1".

Definition unassigned_isNoPriority (t : Task) : bool :=
  JS.not_string (priority t)
  || match priority t with
     | Some p =>
         negb (String.eqb (JS.toUpperCase p) "P0")
         && negb (String.eqb (JS.toUpperCase p) "P1")
     | None => false
     end.

(** [calculateStats(tasks)] *)
Definition calculateStats (tasks : list Task) : M TaskStats :=
  let total := List.length tasks in
  let open := List.length (filter isOpen tasks) in
  let closed := List.length (filter isClosed tasks) in
  overdueList <- filterM isOverdue tasks ;;
  let overdue := List.length overdueList in
  let noTechHandoffETAList := filter isNoTechHandoffETA tasks in
  let noTechHandoffETA := List.length noTechHandoffETAList in
  let noETAP0List := filter noETA_isP0 noTechHandoffETAList in
  let noETAP1List := filter noETA_isP1 noTechHandoffETAList in
  let noETANoPriorityList :=
    filter noETA_isNoPriority noTechHandoffETAList in
  let unassignedTasks := filter isUnassigned tasks in
  let p0List := filter unassigned_isP0 unassignedTasks in
  let p1List := filter unassigned_isP1 unassignedTasks in
  let noPriorityList := filter unassigned_isNoPriority unassignedTasks in
  ret {|
    total := total;
    open := open;
    closed := closed;
    overdue := overdue;
    overdueList := overdueList;
    noTechHandoffETA := noTechHandoffETA;
    noTechHandoffETAList := noTechHandoffETAList;
    noTechHandoffETAByPriority := {|
      p0 := List.length noETAP0List;
      p1 := List.length noETAP1List;
      noPriority := List.length noETANoPriorityList;
      p0List := noETAP0List;
      p1List := noETAP1List;
      noPriorityList := noETANoPriorityList
    |};
    unassignedByPriority := {|
      p0 := List.length p0List;
      p1 := List.length p1List;
      noPriority := List.length noPriorityList;
      p0List := p0List;
      p1List := p1List;
      noPriorityList := noPriorityList
    |}
  |}.

End Service.

(** [if (!grouped.has(k)) grouped.set(k, []); grouped.get(k)!.push(task)] *)
Definition addToGroup (k : string) (task : Task) (grouped : JSMap.t)
    : option JSMap.t :=
  let grouped :=
    if negb (JSMap.has k grouped) then JSMap.set k [] grouped else grouped in
  JSMap.push k task grouped.

(** [groupByAssignee(tasks)]; [None] stands for a thrown [TypeError]. *)
Definition groupByAssignee (tasks : list Task) : option JSMap.t :=
  let grouped := JSMap.empty in
  for_of tasks
    (fun grouped task =>
       if (List.length (assignees task) =? 0)%nat then
         addToGroup "unassigned" task grouped
       else
         for_of (assignees task)
           (fun grouped assignee => addToGroup assignee task grouped)
           grouped)
    grouped.

(** The comparison function of [sortByDueDate]. *)
Definition compareDueDate (ascending : bool) (a b : Task) : Z :=
  if JS.not_date (dueDate a) && JS.not_date (dueDate b) then 0
  else if JS.not_date (dueDate a) then 1
  else if JS.not_date (dueDate b) then -1
  else
    match dueDate a, dueDate b with
    | Some da, Some db =>
        let diff := getTime da - getTime db in
        if ascending then diff else - diff
    | _, _ => 0
    end.

(** [sortByDueDate(tasks, ascending = true)]: [tasks] is a reference to
    the caller's array, [ascending] is [None] when the argument is left
    out.  [[...tasks]] allocates a copy and [sort] sorts the copy in
    place and returns it.  [None] stands for a dangling reference. *)
Definition sortByDueDate (tasks : Store.Ref) (ascending : option bool)
    : Store.t -> option (Store.Ref * Store.t) :=
  fun s =>
    let ascending := match ascending with Some b => b | None => true end in
    match Store.read tasks s with
    | None => None
    | Some elems =>
        let (copy, s1) := Store.alloc elems s in
        match Store.read copy s1 with
        | None => None
        | Some a =>
            Some (copy, Store.write copy (Array_sort (compareDueDate ascending) a) s1)
        end
    end.

(** [filterByDateRange(tasks, startDate, endDate)] *)
Definition filterByDateRange (tasks : list Task)
    (startDate endDate : option Date) : list Task :=
  filter
    (fun task =>
       if match startDate with
          | Some s => createdAt task <? s
          | None => false
          end
       then false
       else if match endDate with
               | Some e => createdAt task >? e
               | None => false
               end
       then false
       else true)
    tasks.

(* ================================================================= *)
(** ** Specification-side definitions *)

(** The priority buckets of the specification. *)
Inductive Bucket := P0 | P1 | NO_PRIORITY.

Definition Bucket_eqb (a b : Bucket) : bool :=
  match a, b with
  | P0, P0 | P1, P1 | NO_PRIORITY, NO_PRIORITY => true
  | _, _ => false
  end.

(** Two code units are the same letter up to case, or the same unit. *)
Definition same_unit_nocase (a b : ascii) : bool :=
  let x := nat_of_ascii a in
  let y := nat_of_ascii b in
  (x =? y)%nat
  || ((65 <=? x)%nat && (x <=? 90)%nat && (y =? x + 32)%nat)
  || ((65 <=? y)%nat && (y <=? 90)%nat && (x =? y + 32)%nat).

(** Case-insensitive equality of strings. *)
Fixpoint equals_nocase (s1 s2 : string) : bool :=
  match s1, s2 with
  | EmptyString, EmptyString => true
  | String a s1', String b s2' => same_unit_nocase a b && equals_nocase s1' s2'
  | _, _ => false
  end.

(** The classification as the specification words it: "P0" and "P1"
    up to case, everything else and an absent priority is no priority. *)
Definition bucket (p : option string) : Bucket :=
  match p with
  | None => NO_PRIORITY
  | Some s =>
      if equals_nocase s "P0" then P0
      else if equals_nocase s "P1" then P1
      else NO_PRIORITY
  end.

Definition inBucket (b : Bucket) (t : Task) : bool :=
  Bucket_eqb (bucket (priority t)) b.

Definition TaskState_eq_dec (a b : TaskState) : {a = b} + {a <> b}.
Proof. decide equality. Defined.

(** The two gaps of the specification: an OPEN task without due date,
    an OPEN task with an empty assignee set. *)
Definition lacksETA (t : Task) : bool :=
  match state t, dueDate t with
  | OPEN, None => true
  | _, _ => false
  end.

Definition lacksAssignee (t : Task) : bool :=
  match state t, assignees t with
  | OPEN, [] => true
  | _, _ => false
  end.

(** Three lists split a list by bucket: each holds the members of one
    bucket, in the order of the list. *)
Definition splitsByBucket (l l0 l1 ln : list Task) : Prop :=
  l0 = filter (inBucket P0) l
  /\ l1 = filter (inBucket P1) l
  /\ ln = filter (inBucket NO_PRIORITY) l.

(** A split is exact: the three lists together are a rearrangement of
    the list, every member sits in exactly one of them, and the sizes
    add up. *)
Definition exactSplit (l l0 l1 ln : list Task) : Prop :=
  Permutation (l0 ++ l1 ++ ln) l
  /\ (forall t, In t l ->
        (In t l0 /\ ~ In t l1 /\ ~ In t ln)
        \/ (~ In t l0 /\ In t l1 /\ ~ In t ln)
        \/ (~ In t l0 /\ ~ In t l1 /\ In t ln))
  /\ (List.length l0 + List.length l1 + List.length ln = List.length l)%nat.

(** Every reading of the clock falls on the local calendar day
    [today]. *)
Definition onDay (LocalTZA : TimeZone) (today : Z) (c : Clock) : Prop :=
  forall n : nat, localDay LocalTZA (c n) = today.

(** The keys under which [groupByAssignee] files a task. *)
Definition groupKeys (t : Task) : list string :=
  match assignees t with
  | [] => ["unassigned"%string]
  | _ :: _ => assignees t
  end.

(** The group of key [k] in a mapping, empty when [k] is not a key. *)
Definition groupOf (k : string) (m : JSMap.t) : list Task :=
  match JSMap.get k m with Some v => v | None => [] end.

(** Some task of the collection is filed under [k]. *)
Definition isGroupKey (k : string) (tasks : list Task) : bool :=
  existsb (fun t => existsb (String.eqb k) (groupKeys t)) tasks.

(** The tasks filed under key [k], one entry per occurrence of [k]
    among a task's keys, in collection order. *)
Definition expectedGroup (k : string) (tasks : list Task) : list Task :=
  flat_map
    (fun t => repeat t (count_occ string_dec (groupKeys t) k))
    tasks.

Definition fanOut (tasks : list Task) : nat :=
  list_sum (map (fun t => Nat.max 1 (List.length (assignees t))) tasks).

(** The retention rule of [filterByDateRange] in the specification. *)
Definition inDateRange (startDate endDate : option Date) (t : Task) : bool :=
  match startDate with None => true | Some s => s <=? createdAt t end
  && match endDate with None => true | Some e => createdAt t <=? e end.

Definition hasDueDate (t : Task) : bool :=
  match dueDate t with Some _ => true | None => false end.

Definition noDueDate (t : Task) : bool := negb (hasDueDate t).

(** The task is due at time [d]. *)
Definition dueAt (d : Date) (t : Task) : bool :=
  match dueDate t with Some d' => d' =? d | None => false end.

(** The due dates of the dated tasks of a list, in list order. *)
Definition dueTimes (l : list Task) : list Date :=
  flat_map (fun t => match dueDate t with Some d => [d] | None => [] end) l.

(** Earliest first when ascending, latest first otherwise. *)
Definition dueOrder (ascending : bool) (d1 d2 : Date) : Prop :=
  if ascending then d1 <= d2 else d2 <= d1.

(** The comparison function puts [a] before [b] or leaves them be. *)
Definition notAfter (compareFn : Task -> Task -> Z) (a b : Task) : Prop :=
  compareFn a b <= 0.

(** The comparison function puts neither of [a] and [b] after the
    other. *)
Definition tied (compareFn : Task -> Task -> Z) (a b : Task) : bool :=
  (compareFn a b <=? 0) && (compareFn b a <=? 0).

(** A year that [new Date(y, m, d)] reads as 1900 + y. *)
Definition twoDigitYear (y : Z) : bool := (0 <=? y) && (y <=? 99).

(** The first instant of the local day with number [d]: local
    midnight as the host reads it. *)
Definition dayStart (LocalTZA : TimeZone) (d : Z) : Date :=
  UTC LocalTZA (d * msPerDay).

(** On the host a later local day starts at a later instant. *)
Definition daysAdvance (LocalTZA : TimeZone) : Prop :=
  forall d1 d2 : Z, d1 < d2 -> dayStart LocalTZA d1 < dayStart LocalTZA d2.

(** On the host every instant lies between the start of its local day
    and the start of the next. *)
Definition daysCoverTime (LocalTZA : TimeZone) : Prop :=
  forall t : Z,
    dayStart LocalTZA (localDay LocalTZA t) <= t
    < dayStart LocalTZA (localDay LocalTZA t + 1).

(* ================================================================= *)
(** ** Sample data *)

Definition sampleTask (name : string) (st : TaskState)
    (who : list string) (prio : option string) (created : Date)
    (due : option Date) : Task :=
  {| id := name; githubId := name; title := name; number := 1;
     type := ISSUE; state := st; status := None; repository := None;
     assignees := who; priority := prio;
     createdAt := created; updatedAt := created;
     dueDate := due; addedToProjectAt := None |}.

(** 2025-11-02T00:00:00Z and the days around it. *)
Definition nov2 : Date := 1762041600000.
Definition nov1 : Date := nov2 - msPerDay.
Definition nov3 : Date := nov2 + msPerDay.

(** 0050-06-15T00:00:00Z and 1940-01-01T00:00:00Z. *)
Definition year50 : Date := -60575040000000.
Definition year1940 : Date := -946771200000.

(** A host whose offset never changes, and a host on UTC. *)
Definition fixedOffset (offset : Z) : TimeZone := fun _ _ => offset.
Definition utc : TimeZone := fixedOffset 0.

Definition msPerHour : Z := 3600000.

(** A host on New York time with the daylight saving of 2025: four
    hours behind UTC from 9 March, 7:00 UTC, to 2 November, 6:00 UTC,
    five hours behind otherwise.  A local time is read as daylight
    time from 3:00 on 9 March until 2:00 on 2 November. *)
Definition dstStart2025 : Date := nov2 - 238 * msPerDay + 7 * msPerHour.
Definition dstEnd2025 : Date := nov2 + 6 * msPerHour.

Definition newYork2025 : TimeZone :=
  fun t isUTC =>
    if isUTC then
      if (dstStart2025 <=? t) && (t <? dstEnd2025)
      then -4 * msPerHour else -5 * msPerHour
    else
      if (dstStart2025 - 4 * msPerHour <=? t)
         && (t <? dstEnd2025 - 4 * msPerHour)
      then -4 * msPerHour else -5 * msPerHour.

(** The year within a 400-year cycle that starts on 1 January 2001,
    from the day within the cycle: the cycle part of [YearFromDay]. *)
Definition yearOfCycle (doe : Z) : Z :=
  let c := Z.min (doe / 36524) 3 in
  let doc := doe - 36524 * c in
  let q := doc / 1461 in
  let doq := doc mod 1461 in
  let yq := Z.min (doq / 365) 3 in
  100 * c + 4 * q + yq.

(** A store holding one array of tasks created on 2, 1, 3 and again
    2 November 2025, the second and the third with a due date. *)
Definition createdStore : Store.t :=
  [ [ sampleTask "second" OPEN [] None nov2 None;
      sampleTask "first" OPEN [] None nov1 (Some nov3);
      sampleTask "third" CLOSED [] None nov3 (Some nov1);
      sampleTask "second-too" OPEN [] None nov2 None ] ].

(** A store holding one array: an undated task, a task due on
    3 November and a task due on 1 November 2025. *)
Definition sampleStore : Store.t :=
  [ [ sampleTask "undated" OPEN [] None nov1 None;
      sampleTask "late" OPEN [] None nov1 (Some nov3);
      sampleTask "early" OPEN [] None nov1 (Some nov1) ] ].

(** A clock that starts one millisecond before 3 November 2025 (UTC)
    and moves on by a millisecond from reading to reading. *)
Definition aroundMidnight : Clock := fun n => nov3 - 1 + Z.of_nat n.

(* ================================================================= *)
(** ** The other operations of [TaskProcessorService] *)

(** [x || d] for [x : string | null]: [null] and the empty string
    give [d]. *)
Definition stringOr (x : option string) (d : string) : string :=
  match x with
  | Some s => if String.eqb s EmptyString then d else s
  | None => d
  end.

(** The result of [segregateTasks]. *)
Module Segregated.
Record t := { open : list Task; closed : list Task }.
End Segregated.

(** [segregateTasks(tasks)] *)
Definition segregateTasks (tasks : list Task) : Segregated.t :=
  let open := filter (fun t => TaskState_eqb (state t) OPEN) tasks in
  let closed :=
    filter
      (fun t =>
         TaskState_eqb (state t) CLOSED || TaskState_eqb (state t) MERGED)
      tasks in
  {| Segregated.open := open; Segregated.closed := closed |}.

(** [groupByRepository(tasks)]; [None] stands for a thrown [TypeError]. *)
Definition groupByRepository (tasks : list Task) : option JSMap.t :=
  let grouped := JSMap.empty in
  for_of tasks
    (fun grouped task =>
       let repo := stringOr (repository task) "unknown" in
       addToGroup repo task grouped)
    grouped.

(** [groupByStatus(tasks)]; [None] stands for a thrown [TypeError]. *)
Definition groupByStatus (tasks : list Task) : option JSMap.t :=
  let grouped := JSMap.empty in
  for_of tasks
    (fun grouped task =>
       let status := stringOr (status task) "no-status" in
       addToGroup status task grouped)
    grouped.

(** The comparison function of [sortByCreationDate]. *)
Definition compareCreationDate (ascending : bool) (a b : Task) : Z :=
  let diff := getTime (createdAt a) - getTime (createdAt b) in
  if ascending then diff else - diff.

(** [sortByCreationDate(tasks, ascending = false)], on the store of
    arrays like [sortByDueDate]. *)
Definition sortByCreationDate (tasks : Store.Ref) (ascending : option bool)
    : Store.t -> option (Store.Ref * Store.t) :=
  fun s =>
    let ascending := match ascending with Some b => b | None => false end in
    match Store.read tasks s with
    | None => None
    | Some elems =>
        let (copy, s1) := Store.alloc elems s in
        match Store.read copy s1 with
        | None => None
        | Some a =>
            Some (copy,
                  Store.write copy
                    (Array_sort (compareCreationDate ascending) a) s1)
        end
    end.

(** A plain object whose values are numbers, by its own properties.
    The entries stand in the order of their first assignment; the
    order in which an engine enumerates them is not modelled. *)
Module JSObject.

Definition t := list (string * nat).

Fixpoint get (k : string) (o : t) : option nat :=
  match o with
  | [] => None
  | (k', v) :: o' => if String.eqb k' k then Some v else get k o'
  end.

(** Creating or overwriting the own property [k]. *)
Fixpoint define (k : string) (v : nat) (o : t) : t :=
  match o with
  | [] => [(k, v)]
  | (k', v') :: o' =>
      if String.eqb k' k then (k', v) :: o' else (k', v') :: define k v o'
  end.

(** [o[k] = v] for a number [v]: an assignment to the key "__proto__"
    reaches the setter of [Object.prototype], which ignores a number;
    any other key becomes or stays an own property. *)
Definition set (k : string) (v : nat) (o : t) : t :=
  if String.eqb k "__proto__" then o else define k v o.

(** The sum of the values of the own properties. *)
Definition sum (o : t) : nat := list_sum (map snd o).

End JSObject.

(** [const o = {}; m.forEach((tasks, k) => { o[k] = tasks.length; })];
    [forEach] visits the entries in insertion order. *)
Definition countsByKey (m : JSMap.t) : JSObject.t :=
  fold_left
    (fun o entry => JSObject.set (fst entry) (List.length (snd entry)) o)
    m [].

(** The result of [getSummaryReport]. *)
Record SummaryReport := {
  stats : TaskStats;
  byRepository : JSObject.t;
  byAssignee : JSObject.t;
  byStatus : JSObject.t
}.

(** [getSummaryReport(tasks)]; [None] stands for a thrown [TypeError]. *)
Definition getSummaryReport (LocalTZA : TimeZone) (tasks : list Task)
    : M (option SummaryReport) :=
  stats <- calculateStats LocalTZA tasks ;;
  ret
    match groupByRepository tasks with
    | None => None
    | Some repos =>
        let byRepository := countsByKey repos in
        match groupByAssignee tasks with
        | None => None
        | Some assigs =>
            let byAssignee := countsByKey assigs in
            match groupByStatus tasks with
            | None => None
            | Some stats' =>
                let byStatus := countsByKey stats' in
                Some {| stats := stats;
                        byRepository := byRepository;
                        byAssignee := byAssignee;
                        byStatus := byStatus |}
            end
        end
    end.

(** *** Specification-side definitions for these operations *)

(** The key under which [groupByRepository] files a task. *)
Definition repositoryKey (t : Task) : string :=
  match repository t with
  | None => "unknown"
  | Some s => if String.eqb s "" then "unknown" else s
  end.

(** The key under which [groupByStatus] files a task. *)
Definition statusKey (t : Task) : string :=
  match status t with
  | None => "no-status"
  | Some s => if String.eqb s "" then "no-status" else s
  end.

(** The tasks whose key is [k], in collection order. *)
Definition withKey (key : Task -> string) (k : string) (tasks : list Task)
    : list Task :=
  filter (fun t => String.eqb (key t) k) tasks.

(** The different elements of a list of keys, each at the place of
    its first occurrence. *)
Fixpoint firstSeen (ks : list string) : list string :=
  match ks with
  | [] => []
  | k :: ks' => k :: filter (fun k' => negb (String.eqb k' k)) (firstSeen ks')
  end.

(** The keys of a mapping, oldest first. *)
Definition keysOf (m : JSMap.t) : list string := map fst m.

(** Filing a sequence of (key, task) pairs: what the three grouping
    loops do, one pair at a time. *)
Definition filePairs (pairs : list (string * Task)) (m : JSMap.t)
    : option JSMap.t :=
  for_of pairs (fun grouped kt => addToGroup (fst kt) (snd kt) grouped) m.

(** The pairs that [groupByAssignee] files. *)
Definition assigneePairs (tasks : list Task) : list (string * Task) :=
  flat_map (fun t => map (fun k => (k, t)) (groupKeys t)) tasks.

(** The pairs that a grouping with one key per task files. *)
Definition keyPairs (key : Task -> string) (tasks : list Task)
    : list (string * Task) :=
  map (fun t => (key t, t)) tasks.

(** A task without repository, with an empty repository name or of
    the repository called "unknown". *)
Definition inUnknownRepository (t : Task) : bool :=
  match repository t with
  | None => true
  | Some s => String.eqb s "" || String.eqb s "unknown"
  end.

(** A task without status, with an empty status or with the status
    called "no-status". *)
Definition hasNoStatus (t : Task) : bool :=
  match status t with
  | None => true
  | Some s => String.eqb s "" || String.eqb s "no-status"
  end.

(** The task was created at time [d]. *)
Definition createdAtTime (d : Date) (t : Task) : bool := createdAt t =? d.

(** The count that the report shows for a group: none for a group
    without tasks. *)
Definition countOrAbsent (group : list Task) : option nat :=
  match group with
  | [] => None
  | _ :: _ => Some (List.length group)
  end.

(** The entry of a report object for an entry of a mapping. *)
Definition countEntry (entry : string * list Task) : string * nat :=
  (fst entry, List.length (snd entry)).

Definition notProto (entry : string * list Task) : bool :=
  negb (String.eqb (fst entry) "__proto__").

Definition isDone (t : Task) : bool :=
  match state t with OPEN => false | _ => true end.

(* ================================================================= *)
(** ** Pagination of the task table ([components/TasksTable.tsx]) *)

(** The expressions of the component [TasksTable] that cut the sorted
    list into pages and number the page buttons.  Numbers are integers
    here: [currentPage] and the indices are [Z], [itemsPerPage] is one
    of the options of its select box (10, 25, 50, 100), a positive
    integer.  The element type of the list plays no part. *)
Module TasksTable.

(** [Array.prototype.slice(start, end)] *)
Definition slice {A} (l : list A) (start final : Z) : list A :=
  let len := Z.of_nat (List.length l) in
  let k := if start <? 0 then Z.max (len + start) 0 else Z.min start len in
  let final :=
    if final <? 0 then Z.max (len + final) 0 else Z.min final len in
  let count := Z.max (final - k) 0 in
  firstn (Z.to_nat count) (skipn (Z.to_nat k) l).

(** [Math.ceil(sortedTasks.length / itemsPerPage)]: the quotient of a
    length by a positive integer, rounded up. *)
Definition totalPages {A} (sortedTasks : list A) (itemsPerPage : positive)
    : Z :=
  (Z.of_nat (List.length sortedTasks) + Z.pos itemsPerPage - 1)
  / Z.pos itemsPerPage.

(** [paginatedTasks] *)
Definition paginatedTasks {A} (sortedTasks : list A) (currentPage : Z)
    (itemsPerPage : positive) : list A :=
  let startIndex := (currentPage - 1) * Z.pos itemsPerPage in
  slice sortedTasks startIndex (startIndex + Z.pos itemsPerPage).

(** The number on the [i]-th page button. *)
Definition pageNum (totalPages currentPage i : Z) : Z :=
  if totalPages <=? 5 then i + 1
  else if currentPage <=? 3 then i + 1
  else if currentPage >=? totalPages - 2 then totalPages - 4 + i
  else currentPage - 2 + i.

(** The pagination bar, by the targets of its buttons and whether
    they are disabled: First, Previous, the numbered buttons
    ([Array.from({ length: Math.min(5, totalPages) }, ...)]), Next and
    Last. *)
Record PaginationBar := {
  first : Z;
  firstDisabled : bool;
  previous : Z;
  previousDisabled : bool;
  numbered : list Z;
  next : Z;
  nextDisabled : bool;
  last : Z;
  lastDisabled : bool
}.

(** The bar is rendered under the guard
    [!showOverdueOnly && totalPages > 1]; [None] stands for no bar. *)
Definition paginationBar (showOverdueOnly : bool)
    (totalPages currentPage : Z) : option PaginationBar :=
  if negb showOverdueOnly && (totalPages >? 1) then
    Some {| first := 1;
            firstDisabled := currentPage =? 1;
            previous := Z.max 1 (currentPage - 1);
            previousDisabled := currentPage =? 1;
            numbered :=
              map (fun i => pageNum totalPages currentPage (Z.of_nat i))
                (seq 0 (Z.to_nat (Z.min 5 totalPages)));
            next := Z.min totalPages (currentPage + 1);
            nextDisabled := currentPage =? totalPages;
            last := totalPages;
            lastDisabled := currentPage =? totalPages |}
  else None.

(** The pages from 1 to [n]. *)
Definition pagesUpTo (n : Z) : list Z :=
  map (fun i => Z.of_nat i + 1) (seq 0 (Z.to_nat n)).

End TasksTable.

(* ================================================================= *)
(** * Properties *)

(** ** The calendar *)

Lemma yearOfCycle_bounds (doe : Z) :
  0 <= doe < 146097 ->
  0 <= yearOfCycle doe < 400
  /\ DayFromYear (2001 + yearOfCycle doe) - 11323 <= doe
     < DayFromYear (2002 + yearOfCycle doe) - 11323.
Proof.
  intros H. unfold yearOfCycle, DayFromYear. cbv zeta.
  set (c := Z.min (doe / 36524) 3).
  assert (Hc : c = 0 /\ doe < 36524 \/ c = 1 /\ 36524 <= doe < 73048
               \/ c = 2 /\ 73048 <= doe < 109572 \/ c = 3 /\ 109572 <= doe).
  { subst c. Z.div_mod_to_equations. lia. }
  clearbody c.
  set (doc := doe - 36524 * c).
  set (q := doc / 1461). set (doq := doc mod 1461).
  assert (Hq : doc = 1461 * q + doq /\ 0 <= doq < 1461)
    by (subst q doq; Z.div_mod_to_equations; lia).
  clearbody q doq.
  set (yq := Z.min (doq / 365) 3).
  assert (Hyq : yq = 0 /\ doq < 365 \/ yq = 1 /\ 365 <= doq < 730
                \/ yq = 2 /\ 730 <= doq < 1095 \/ yq = 3 /\ 1095 <= doq).
  { subst yq. Z.div_mod_to_equations. lia. }
  clearbody yq.
  destruct Hc as [[-> ?]|[[-> ?]|[[-> ?]|[-> ?]]]];
    destruct Hyq as [[-> ?]|[[-> ?]|[[-> ?]|[-> ?]]]]; subst doc;
    Z.div_mod_to_equations; lia.
Qed.

Lemma DayFromYear_period (y k : Z) :
  DayFromYear (y + 400 * k) = DayFromYear y + 146097 * k.
Proof.
  unfold DayFromYear.
  replace (y + 400 * k - 1969) with (y - 1969 + (100 * k) * 4) by lia.
  replace (y + 400 * k - 1901) with (y - 1901 + (4 * k) * 100) by lia.
  replace (y + 400 * k - 1601) with (y - 1601 + k * 400) by lia.
  rewrite !Z.div_add by lia. lia.
Qed.

Lemma YearFromDay_cycle (d : Z) :
  YearFromDay d
  = 2001 + yearOfCycle ((d - 11323) mod 146097) + 400 * ((d - 11323) / 146097).
Proof. unfold YearFromDay, yearOfCycle. cbv zeta. lia. Qed.

(** [YearFromDay d] is the year whose days include [d]. *)
Lemma YearFromDay_bounds (d : Z) :
  DayFromYear (YearFromDay d) <= d < DayFromYear (YearFromDay d + 1).
Proof.
  rewrite YearFromDay_cycle.
  set (n := d - 11323).
  assert (Hdoe : 0 <= n mod 146097 < 146097) by (apply Z.mod_pos_bound; lia).
  destruct (yearOfCycle_bounds _ Hdoe) as [_ [H3 H4]].
  replace (2001 + yearOfCycle (n mod 146097) + 400 * (n / 146097) + 1)
    with (2002 + yearOfCycle (n mod 146097) + 400 * (n / 146097)) by lia.
  rewrite !DayFromYear_period.
  pose proof (Z.div_mod n 146097 ltac:(lia)) as Hdm.
  subst n. lia.
Qed.

Lemma DayFromYear_mono (y1 y2 : Z) :
  y1 <= y2 -> DayFromYear y1 <= DayFromYear y2.
Proof.
  intros H. unfold DayFromYear.
  pose proof (Z.div_le_mono (y1 - 1969) (y2 - 1969) 4 ltac:(lia) ltac:(lia)).
  pose proof (Z.div_le_mono (y1 - 1601) (y2 - 1601) 400 ltac:(lia) ltac:(lia)).
  assert ((y2 - 1901) / 100 - (y1 - 1901) / 100 <= y2 - y1).
  { pose proof (Z.div_mod (y2 - 1901) 100 ltac:(lia)).
    pose proof (Z.div_mod (y1 - 1901) 100 ltac:(lia)).
    pose proof (Z.mod_pos_bound (y2 - 1901) 100 ltac:(lia)).
    pose proof (Z.mod_pos_bound (y1 - 1901) 100 ltac:(lia)).
    lia. }
  lia.
Qed.

(** The specification of ECMA-262: [YearFromTime t] is the largest
    year whose first instant is not after [t]. *)
Lemma YearFromTime_spec (t y : Z) :
  TimeFromYear y <= t <-> y <= YearFromTime t.
Proof.
  unfold TimeFromYear, YearFromTime, Day, msPerDay.
  pose proof (YearFromDay_bounds (t / 86400000)) as [Hlo Hhi].
  pose proof (Z.div_mod t 86400000 ltac:(lia)) as Hdm.
  pose proof (Z.mod_pos_bound t 86400000 ltac:(lia)) as Hm.
  split; intros H.
  - destruct (Z_le_gt_dec y (YearFromDay (t / 86400000))) as [|Hgt]; [assumption|].
    pose proof (DayFromYear_mono (YearFromDay (t / 86400000) + 1) y ltac:(lia)).
    lia.
  - pose proof (DayFromYear_mono y (YearFromDay (t / 86400000)) H).
    lia.
Qed.

(** The leap-year rule and the day numbering of years agree. *)
Lemma DaysInYear_DayFromYear (y : Z) :
  DayFromYear (y + 1) - DayFromYear y = DaysInYear y.
Proof.
  unfold DayFromYear, DaysInYear.
  destruct (Z.eqb_spec (y mod 4) 0), (Z.eqb_spec (y mod 100) 0),
    (Z.eqb_spec (y mod 400) 0); cbn [negb];
    Z.div_mod_to_equations; lia.
Qed.

Lemma InLeapYear_cases (t : Z) :
  InLeapYear t = 0 /\ DaysInYear (YearFromTime t) = 365
  \/ InLeapYear t = 1 /\ DaysInYear (YearFromTime t) = 366.
Proof.
  unfold InLeapYear.
  destruct (Z.eqb_spec (DaysInYear (YearFromTime t)) 365) as [E|E]; [now left|].
  right. split; [reflexivity|].
  revert E. unfold DaysInYear.
  repeat match goal with |- context [if ?b then _ else _] => destruct b end;
    intros; congruence.
Qed.

Lemma DayWithinYear_bounds (t : Z) :
  0 <= DayWithinYear t < DaysInYear (YearFromTime t).
Proof.
  unfold DayWithinYear, YearFromTime.
  pose proof (YearFromDay_bounds (Day t)).
  pose proof (DaysInYear_DayFromYear (YearFromDay (Day t))).
  lia.
Qed.

Lemma MonthFromTime_bounds (t : Z) : 0 <= MonthFromTime t <= 11.
Proof.
  unfold MonthFromTime. cbv zeta.
  repeat match goal with |- context [if ?b then _ else _] => destruct b end;
    lia.
Qed.

Lemma DateFromTime_bounds (t : Z) : 1 <= DateFromTime t <= 31.
Proof.
  pose proof (DayWithinYear_bounds t) as Hd.
  unfold DateFromTime, MonthFromTime. cbv zeta.
  destruct (InLeapYear_cases t) as [[-> E]|[-> E]]; rewrite E in Hd;
    repeat match goal with
           | |- context [if ?a <? ?b then _ else _] =>
               destruct (Z.ltb_spec a b)
           end; lia.
Qed.

(** The three calendar fields of a time give back its day number. *)
Lemma MakeDay_fields (t : Z) :
  MakeDay (YearFromTime t) (MonthFromTime t) (DateFromTime t) = Day t.
Proof.
  pose proof (MonthFromTime_bounds t) as Hm.
  unfold MakeDay. cbv zeta.
  rewrite Z.div_small, Z.mod_small, Z.add_0_r by lia.
  fold (InLeapYear t).
  unfold DateFromTime, MonthFromTime. cbv zeta.
  repeat match goal with
         | |- context [if ?a <? ?b then _ else _] =>
             destruct (Z.ltb_spec a b)
         end; unfold monthStart, DayWithinYear; lia.
Qed.

Section HostFacts.
Variable LocalTZA : TimeZone.

(** Outside the two-digit years, [new Date(y, m, d)] on the fields
    of a date is local midnight of the date's day. *)
Lemma newDateYMD_fields (d : Date) :
  twoDigitYear (getFullYear LocalTZA d) = false ->
  newDateYMD LocalTZA (getFullYear LocalTZA d) (getMonth LocalTZA d)
    (getDate LocalTZA d)
  = UTC LocalTZA (localDay LocalTZA d * msPerDay).
Proof.
  unfold twoDigitYear, newDateYMD, getFullYear, getMonth, getDate, localDay.
  intros E. cbv zeta.
  rewrite E, MakeDay_fields. unfold MakeDate, MakeTime. f_equal. lia.
Qed.

(** Where later days start later, comparing the starts of two days
    is comparing the days. *)
Lemma dayStart_le (a b : Z) :
  daysAdvance LocalTZA ->
  (dayStart LocalTZA a <=? dayStart LocalTZA b) = (a <=? b).
Proof.
  intros Hadv.
  destruct (Z.leb_spec a b) as [Hab|Hba].
  - apply Z.leb_le.
    destruct (Z.eq_dec a b) as [->|Hne]; [lia|].
    pose proof (Hadv a b ltac:(lia)). lia.
  - apply Z.leb_gt. now apply Hadv.
Qed.

(** [new Date(y, m, d)] as local midnight of a day number. *)
Lemma newDateYMD_day (y m dt : Z) :
  newDateYMD LocalTZA y m dt
  = dayStart LocalTZA
      (MakeDay (if twoDigitYear y then 1900 + y else y) m dt).
Proof.
  unfold newDateYMD, dayStart, twoDigitYear, MakeDate, MakeTime.
  f_equal. lia.
Qed.

(** On the fields of a date in a year from 0 to 99 the constructor
    gives a day of the twentieth century. *)
Lemma two_digit_day_before_2000 (d : Date) :
  twoDigitYear (getFullYear LocalTZA d) = true ->
  localDay LocalTZA d < DayFromYear 2000
  /\ MakeDay (1900 + getFullYear LocalTZA d) (getMonth LocalTZA d)
       (getDate LocalTZA d) < DayFromYear 2000.
Proof.
  unfold twoDigitYear, getFullYear, getMonth, getDate, localDay.
  set (t := LocalTime LocalTZA d). intros H.
  apply andb_prop in H as [H0 H99]. apply Z.leb_le in H0, H99.
  pose proof (MonthFromTime_bounds t) as Hm.
  pose proof (DateFromTime_bounds t) as Hd.
  split.
  - pose proof (YearFromDay_bounds (Day t)) as [_ Hhi].
    fold (YearFromTime t) in Hhi.
    pose proof (DayFromYear_mono (YearFromTime t + 1) 2000 ltac:(lia)). lia.
  - unfold MakeDay. cbv zeta.
    rewrite Z.div_small, Z.mod_small, Z.add_0_r by lia.
    pose proof (DaysInYear_DayFromYear (1900 + YearFromTime t)) as Hy.
    pose proof (DayFromYear_mono (1900 + YearFromTime t + 1) 2000 ltac:(lia)).
    assert (Hs : forall leap, 0 <= leap ->
              monthStart leap (MonthFromTime t) <= 334 + leap).
    { intros leap Hl. unfold monthStart.
      destruct (MonthFromTime t) as [|p|p]; try lia.
      do 4 (destruct p as [p|p|]; try lia). }
    destruct (Z.eqb_spec (DaysInYear (1900 + YearFromTime t)) 365) as [E|E].
    + specialize (Hs 0 ltac:(lia)). lia.
    + assert (DaysInYear (1900 + YearFromTime t) = 366).
      { revert E. unfold DaysInYear.
        repeat match goal with
               | |- context [if ?b then _ else _] => destruct b
               end; intros; congruence. }
      specialize (Hs 1 ltac:(lia)). lia.
Qed.

(** From the year 2000 on the days are not before 1 January 2000. *)
Lemma day_from_2000 (d : Date) :
  2000 <= getFullYear LocalTZA d -> DayFromYear 2000 <= localDay LocalTZA d.
Proof.
  unfold getFullYear, localDay, YearFromTime. intros H.
  pose proof (YearFromDay_bounds (Day (LocalTime LocalTZA d))) as [Hlo _].
  pose proof (DayFromYear_mono 2000 _ H). lia.
Qed.

Lemma twoDigitYear_from_2000 (y : Z) : 2000 <= y -> twoDigitYear y = false.
Proof.
  intros H. unfold twoDigitYear.
  destruct (Z.leb_spec y 99); [lia|]. apply andb_false_r.
Qed.

(** With the clock in the year 2000 or later, on a host where later
    days start later, the comparison of [isOverdue] is the comparison
    of local days. *)
Lemma compare_days (due now : Date) :
  daysAdvance LocalTZA ->
  2000 <= getFullYear LocalTZA now ->
  (newDateYMD LocalTZA (getFullYear LocalTZA due) (getMonth LocalTZA due)
     (getDate LocalTZA due)
   <=? newDateYMD LocalTZA (getFullYear LocalTZA now) (getMonth LocalTZA now)
         (getDate LocalTZA now))
  = (localDay LocalTZA due <=? localDay LocalTZA now).
Proof.
  intros Hadv Hy.
  rewrite (newDateYMD_fields now (twoDigitYear_from_2000 _ Hy)).
  destruct (twoDigitYear (getFullYear LocalTZA due)) eqn:Ed.
  - rewrite newDateYMD_day, Ed.
    change (UTC LocalTZA (localDay LocalTZA now * msPerDay))
      with (dayStart LocalTZA (localDay LocalTZA now)).
    rewrite dayStart_le by exact Hadv.
    destruct (two_digit_day_before_2000 due Ed) as [H1 H2].
    pose proof (day_from_2000 now Hy) as H3.
    transitivity true; [apply Z.leb_le | symmetry; apply Z.leb_le]; lia.
  - rewrite (newDateYMD_fields due Ed). now apply dayStart_le.
Qed.

End HostFacts.

(* ================================================================= *)
(** ** Overdue classification *)

Section Overdue.
Variable LocalTZA : TimeZone.



(** What an evaluation that reaches the comparison computes. *)
Lemma isOverdue_open (task : Task) (due : Date) (c : Clock) :
  dueDate task = Some due -> state task = OPEN ->
  fst (isOverdue LocalTZA task c)
  = (newDateYMD LocalTZA (getFullYear LocalTZA due)
       (getMonth LocalTZA due) (getDate LocalTZA due)
     <=? newDateYMD LocalTZA (getFullYear LocalTZA (c 0%nat))
           (getMonth LocalTZA (c 0%nat)) (getDate LocalTZA (c 0%nat))).
Proof. intros Hd Hs. unfold isOverdue. rewrite Hd, Hs. reflexivity. Qed.
End Overdue.

Lemma newYork2025_daysAdvance : daysAdvance newYork2025.
Proof.
  intros d1 d2 H. unfold dayStart, UTC, newYork2025, msPerDay, msPerHour.
  destruct ((dstStart2025 - 4 * 3600000 <=? d1 * 86400000)
            && (d1 * 86400000 <? dstEnd2025 - 4 * 3600000));
    destruct ((dstStart2025 - 4 * 3600000 <=? d2 * 86400000)
              && (d2 * 86400000 <? dstEnd2025 - 4 * 3600000)); lia.
Qed.



(** Why the clock is taken in the year 2000 or later: the constructor
    [new Date(y, m, d)] reads a year from 0 to 99 as 1900 + y, so with
    a clock that reads 1 January 1940 (UTC) a task due on 15 June of
    the year 50 is taken to be due on 15 June 1950. *)
Lemma isOverdue_clock_before_2000 :
  let task := sampleTask "due-in-50" OPEN [] None year50 (Some year50) in
  (getFullYear utc year50, getMonth utc year50, getDate utc year50)
  = (50, 5, 15)
  /\ (getFullYear utc year1940, getMonth utc year1940, getDate utc year1940)
     = (1940, 0, 1)
  /\ localDay utc year50 <= localDay utc year1940
  /\ fst (isOverdue utc task (frozen year1940)) = false.
Proof.
  cbv zeta. repeat split; try reflexivity.
  vm_compute. discriminate.
Qed.

(* ================================================================= *)
(** ** Priority buckets *)

Lemma toUpperCase_unit_P (a : ascii) :
  Ascii.eqb (JS.toUpperCase_unit a) "P" = same_unit_nocase a "P".
Proof. destruct a as [[] [] [] [] [] [] [] []]; reflexivity. Qed.

Lemma toUpperCase_unit_0 (a : ascii) :
  Ascii.eqb (JS.toUpperCase_unit a) "0" = same_unit_nocase a "0".
Proof. destruct a as [[] [] [] [] [] [] [] []]; reflexivity. Qed.

Lemma toUpperCase_unit_1 (a : ascii) :
  Ascii.eqb (JS.toUpperCase_unit a) "1" = same_unit_nocase a "1".
Proof. destruct a as [[] [] [] [] [] [] [] []]; reflexivity. Qed.

Lemma same_unit_nocase_P (a : ascii) :
  same_unit_nocase a "P" = Ascii.eqb a "P" || Ascii.eqb a "p".
Proof. destruct a as [[] [] [] [] [] [] [] []]; reflexivity. Qed.

Lemma same_unit_nocase_0 (a : ascii) :
  same_unit_nocase a "0" = Ascii.eqb a "0".
Proof. destruct a as [[] [] [] [] [] [] [] []]; reflexivity. Qed.

Lemma same_unit_nocase_1 (a : ascii) :
  same_unit_nocase a "1" = Ascii.eqb a "1".
Proof. destruct a as [[] [] [] [] [] [] [] []]; reflexivity. Qed.

(** Comparing the upper-cased string with "P0" is comparing the string
    with "P0" up to case. *)
Lemma toUpperCase_P0 (s : string) :
  String.eqb (JS.toUpperCase s) "P0" = equals_nocase s "P0".
Proof.
  destruct s as [|a [|b [|c s]]]; cbn; try reflexivity;
    rewrite ?toUpperCase_unit_P, ?toUpperCase_unit_0;
    destruct (same_unit_nocase a "P"); try reflexivity;
    destruct (same_unit_nocase b "0"); reflexivity.
Qed.

Lemma toUpperCase_P1 (s : string) :
  String.eqb (JS.toUpperCase s) "P1" = equals_nocase s "P1".
Proof.
  destruct s as [|a [|b [|c s]]]; cbn; try reflexivity;
    rewrite ?toUpperCase_unit_P, ?toUpperCase_unit_1;
    destruct (same_unit_nocase a "P"); try reflexivity;
    destruct (same_unit_nocase b "1"); reflexivity.
Qed.

Lemma equals_nocase_P0 (s : string) :
  equals_nocase s "P0" = true <-> s = "P0"%string \/ s = "p0"%string.
Proof.
  split.
  - destruct s as [|a [|b [|c s]]]; cbn; try discriminate.
    + rewrite andb_false_r. discriminate.
    + rewrite same_unit_nocase_P, same_unit_nocase_0, andb_true_r.
      intros H. apply andb_prop in H as [Ha Hb].
      apply Ascii.eqb_eq in Hb. subst b.
      apply orb_prop in Ha as [Ha|Ha]; apply Ascii.eqb_eq in Ha; subst a; auto.
    + rewrite !andb_false_r. discriminate.
  - intros [->| ->]; reflexivity.
Qed.

Lemma equals_nocase_P1 (s : string) :
  equals_nocase s "P1" = true <-> s = "P1"%string \/ s = "p1"%string.
Proof.
  split.
  - destruct s as [|a [|b [|c s]]]; cbn; try discriminate.
    + rewrite andb_false_r. discriminate.
    + rewrite same_unit_nocase_P, same_unit_nocase_1, andb_true_r.
      intros H. apply andb_prop in H as [Ha Hb].
      apply Ascii.eqb_eq in Hb. subst b.
      apply orb_prop in Ha as [Ha|Ha]; apply Ascii.eqb_eq in Ha; subst a; auto.
    + rewrite !andb_false_r. discriminate.
  - intros [->| ->]; reflexivity.
Qed.

Lemma equals_nocase_P0_P1 (s : string) :
  equals_nocase s "P0" = true -> equals_nocase s "P1" = false.
Proof. intros H. apply equals_nocase_P0 in H as [->| ->]; reflexivity. Qed.

(** The three arrow functions of the no-ETA split are the buckets. *)
Lemma noETA_buckets (t : Task) :
  noETA_isP0 t = inBucket P0 t
  /\ noETA_isP1 t = inBucket P1 t
  /\ noETA_isNoPriority t = inBucket NO_PRIORITY t.
Proof.
  unfold noETA_isP0, noETA_isP1, noETA_isNoPriority, inBucket, bucket,
    JS.strict_eq, JS.toUpperCase_opt, JS.not_string.
  destruct (priority t) as [p|]; cbn [option_map]; [|repeat split].
  rewrite !toUpperCase_P0, !toUpperCase_P1.
  destruct (String.eqb_spec p "") as [->|_]; [repeat split|].
  destruct (equals_nocase p "P0") eqn:E0.
  - rewrite (equals_nocase_P0_P1 p E0). repeat split.
  - destruct (equals_nocase p "P1"); repeat split.
Qed.

(** So are the three arrow functions of the unassigned split. *)
Lemma unassigned_buckets (t : Task) :
  unassigned_isP0 t = inBucket P0 t
  /\ unassigned_isP1 t = inBucket P1 t
  /\ unassigned_isNoPriority t = inBucket NO_PRIORITY t.
Proof. exact (noETA_buckets t). Qed.

(* ================================================================= *)
(** ** Statistics *)

Lemma filter_ext_eq {A} (f g : A -> bool) (l : list A) :
  (forall x, f x = g x) -> filter f l = filter g l.
Proof. intros H. apply filter_ext. exact H. Qed.

Lemma splitsByBucket_exact (l l0 l1 ln : list Task) :
  splitsByBucket l l0 l1 ln -> exactSplit l l0 l1 ln.
Proof.
  intros (-> & -> & ->).
  assert (HP : Permutation
                 (filter (inBucket P0) l ++ filter (inBucket P1) l
                  ++ filter (inBucket NO_PRIORITY) l) l).
  { induction l as [|a l IH]; [constructor|].
    cbn [filter].
    change (inBucket P0 a) with (Bucket_eqb (bucket (priority a)) P0).
    change (inBucket P1 a) with (Bucket_eqb (bucket (priority a)) P1).
    change (inBucket NO_PRIORITY a)
      with (Bucket_eqb (bucket (priority a)) NO_PRIORITY).
    destruct (bucket (priority a)); cbn [Bucket_eqb].
    - cbn [app]. apply perm_skip, IH.
    - apply Permutation_sym.
      apply (Permutation_cons_app (filter (inBucket P0) l)
               (filter (inBucket P1) l ++ filter (inBucket NO_PRIORITY) l)).
      apply Permutation_sym, IH.
    - rewrite app_assoc. apply Permutation_sym.
      apply (Permutation_cons_app
               (filter (inBucket P0) l ++ filter (inBucket P1) l)
               (filter (inBucket NO_PRIORITY) l)).
      rewrite <- app_assoc. apply Permutation_sym, IH. }
  split; [exact HP|split].
  - intros t Ht. rewrite !filter_In. unfold inBucket.
    destruct (bucket (priority t)); cbn [Bucket_eqb];
      [left|right;left|right;right]; intuition congruence.
  - apply Permutation_length in HP.
    rewrite !length_app in HP. lia.
Qed.

Section Stats.
Variable LocalTZA : TimeZone.
Variable tasks : list Task.
Variable c : Clock.

Let stats := fst (calculateStats LocalTZA tasks c).

(** The snapshot, field by field. *)
Lemma calculateStats_run :
  stats =
  let overdueList := fst (filterM (isOverdue LocalTZA) tasks c) in
  let noTechHandoffETAList := filter isNoTechHandoffETA tasks in
  let unassignedTasks := filter isUnassigned tasks in
  {| total := List.length tasks;
     open := List.length (filter isOpen tasks);
     closed := List.length (filter isClosed tasks);
     overdue := List.length overdueList;
     overdueList := overdueList;
     noTechHandoffETA := List.length noTechHandoffETAList;
     noTechHandoffETAList := noTechHandoffETAList;
     noTechHandoffETAByPriority :=
       {| p0 := List.length (filter noETA_isP0 noTechHandoffETAList);
          p1 := List.length (filter noETA_isP1 noTechHandoffETAList);
          noPriority :=
            List.length (filter noETA_isNoPriority noTechHandoffETAList);
          p0List := filter noETA_isP0 noTechHandoffETAList;
          p1List := filter noETA_isP1 noTechHandoffETAList;
          noPriorityList := filter noETA_isNoPriority noTechHandoffETAList |};
     unassignedByPriority :=
       {| p0 := List.length (filter unassigned_isP0 unassignedTasks);
          p1 := List.length (filter unassigned_isP1 unassignedTasks);
          noPriority :=
            List.length (filter unassigned_isNoPriority unassignedTasks);
          p0List := filter unassigned_isP0 unassignedTasks;
          p1List := filter unassigned_isP1 unassignedTasks;
          noPriorityList := filter unassigned_isNoPriority unassignedTasks |}
  |}.
Proof.
  subst stats. unfold calculateStats, bind, ret.
  destruct (filterM (isOverdue LocalTZA) tasks c). reflexivity.
Qed.

Lemma noTechHandoffETAList_lacksETA :
  noTechHandoffETAList stats = filter lacksETA tasks.
Proof.
  rewrite calculateStats_run. cbn.
  apply filter_ext_eq. intros t.
  unfold isNoTechHandoffETA, lacksETA, JS.not_date.
  destruct (state t), (dueDate t); reflexivity.
Qed.

Lemma isUnassigned_lacksAssignee (t : Task) :
  isUnassigned t = lacksAssignee t.
Proof.
  unfold isUnassigned, lacksAssignee.
  destruct (state t), (assignees t); reflexivity.
Qed.

Lemma noETA_split :
  splitsByBucket (noTechHandoffETAList stats)
    (p0List (noTechHandoffETAByPriority stats))
    (p1List (noTechHandoffETAByPriority stats))
    (noPriorityList (noTechHandoffETAByPriority stats)).
Proof.
  rewrite calculateStats_run. cbn.
  repeat split; apply filter_ext_eq; intros t; apply noETA_buckets.
Qed.

Lemma unassigned_split :
  splitsByBucket (filter lacksAssignee tasks)
    (p0List (unassignedByPriority stats))
    (p1List (unassignedByPriority stats))
    (noPriorityList (unassignedByPriority stats)).
Proof.
  rewrite calculateStats_run. cbn.
  rewrite (filter_ext_eq _ _ tasks isUnassigned_lacksAssignee).
  repeat split; apply filter_ext_eq; intros t; apply unassigned_buckets.
Qed.

Lemma counts_are_lengths :
  overdue stats = List.length (overdueList stats)
  /\ noTechHandoffETA stats = List.length (noTechHandoffETAList stats)
  /\ p0 (noTechHandoffETAByPriority stats)
     = List.length (p0List (noTechHandoffETAByPriority stats))
  /\ p1 (noTechHandoffETAByPriority stats)
     = List.length (p1List (noTechHandoffETAByPriority stats))
  /\ noPriority (noTechHandoffETAByPriority stats)
     = List.length (noPriorityList (noTechHandoffETAByPriority stats))
  /\ p0 (unassignedByPriority stats)
     = List.length (p0List (unassignedByPriority stats))
  /\ p1 (unassignedByPriority stats)
     = List.length (p1List (unassignedByPriority stats))
  /\ noPriority (unassignedByPriority stats)
     = List.length (noPriorityList (unassignedByPriority stats)).
Proof. rewrite calculateStats_run. cbn. repeat split. Qed.
End Stats.

Lemma length_filter_state (tasks : list Task) (f : Task -> bool)
    (n : list TaskState -> nat) :
  n [] = 0%nat ->
  (forall t l, n (state t :: l) = ((if f t then 1 else 0) + n l)%nat) ->
  List.length (filter f tasks) = n (map state tasks).
Proof.
  intros H0 HS. induction tasks as [|t l IH]; cbn [filter map].
  - now rewrite H0.
  - rewrite HS. destruct (f t); cbn [List.length]; lia.
Qed.

(** C2.  The no-ETA list is the OPEN tasks without due date, in
    collection order, and its three priority sublists split it
    exactly: together they are a rearrangement of it, each member is
    in exactly one of them, and their sizes add up to
    [noTechHandoffETA].  The same holds for [unassignedByPriority]
    over the OPEN tasks with an empty assignee set. *)
Theorem calculateStats_gap_partition (LocalTZA : TimeZone) (tasks : list Task)
    (c : Clock) :
  let stats := fst (calculateStats LocalTZA tasks c) in
  let noETA := noTechHandoffETAByPriority stats in
  let unassigned := unassignedByPriority stats in
  noTechHandoffETAList stats = filter lacksETA tasks
  /\ (forall t, lacksETA t = true <-> state t = OPEN /\ dueDate t = None)
  /\ exactSplit (noTechHandoffETAList stats)
       (p0List noETA) (p1List noETA) (noPriorityList noETA)
  /\ (p0 noETA + p1 noETA + noPriority noETA = noTechHandoffETA stats)%nat
  /\ (forall t, lacksAssignee t = true <-> state t = OPEN /\ assignees t = [])
  /\ exactSplit (filter lacksAssignee tasks)
       (p0List unassigned) (p1List unassigned) (noPriorityList unassigned)
  /\ (p0 unassigned + p1 unassigned + noPriority unassigned
      = List.length (filter lacksAssignee tasks))%nat.
Proof.
  cbv zeta.
  pose proof (splitsByBucket_exact _ _ _ _ (noETA_split LocalTZA tasks c)) as HE.
  pose proof (splitsByBucket_exact _ _ _ _ (unassigned_split LocalTZA tasks c))
    as HU.
  pose proof (counts_are_lengths LocalTZA tasks c)
    as (_ & Hn & H0 & H1 & H2 & H3 & H4 & H5).
  cbv zeta in *.
  split; [apply noTechHandoffETAList_lacksETA|].
  split.
  { intros t. unfold lacksETA.
    destruct (state t), (dueDate t); split; intros H;
      try discriminate; try (destruct H; discriminate); auto. }
  split; [exact HE|].
  split.
  { rewrite H0, H1, H2, Hn. apply HE. }
  split.
  { intros t. unfold lacksAssignee.
    destruct (state t), (assignees t); split; intros H;
      try discriminate; try (destruct H; discriminate); auto. }
  split; [exact HU|].
  rewrite H3, H4, H5. apply HU.
Qed.

(** C3.  The buckets are those of the specification: "P0" and "P1" up
    to case, no priority for everything else.  The arrow functions of
    the no-ETA split and those of the unassigned split are this one
    classification, so they agree on every task, and both splits of
    a snapshot are splits by bucket. *)
Theorem priority_bucketing_shared (LocalTZA : TimeZone) (tasks : list Task)
    (c : Clock) :
  let stats := fst (calculateStats LocalTZA tasks c) in
  let noETA := noTechHandoffETAByPriority stats in
  let unassigned := unassignedByPriority stats in
  (forall p, bucket p = P0 <-> p = Some "P0"%string \/ p = Some "p0"%string)
  /\ (forall p, bucket p = P1 <-> p = Some "P1"%string \/ p = Some "p1"%string)
  /\ bucket None = NO_PRIORITY
  /\ bucket (Some ""%string) = NO_PRIORITY
  /\ bucket (Some "P2"%string) = NO_PRIORITY
  /\ (forall t,
        noETA_isP0 t = inBucket P0 t
        /\ noETA_isP1 t = inBucket P1 t
        /\ noETA_isNoPriority t = inBucket NO_PRIORITY t
        /\ unassigned_isP0 t = noETA_isP0 t
        /\ unassigned_isP1 t = noETA_isP1 t
        /\ unassigned_isNoPriority t = noETA_isNoPriority t)
  /\ splitsByBucket (noTechHandoffETAList stats)
       (p0List noETA) (p1List noETA) (noPriorityList noETA)
  /\ splitsByBucket (filter lacksAssignee tasks)
       (p0List unassigned) (p1List unassigned) (noPriorityList unassigned).
Proof.
  cbv zeta.
  split.
  { intros [p|]; unfold bucket.
    - destruct (equals_nocase p "P0") eqn:E0.
      + apply equals_nocase_P0 in E0. split; [intros _|reflexivity].
        destruct E0 as [->| ->]; auto.
      + split.
        * destruct (equals_nocase p "P1"); discriminate.
        * intros [H|H]; injection H as ->; discriminate.
    - split; [discriminate | intros [H|H]; discriminate]. }
  split.
  { intros [p|]; unfold bucket.
    - destruct (equals_nocase p "P0") eqn:E0.
      + split; [discriminate|].
        intros [H|H]; injection H as ->; discriminate.
      + destruct (equals_nocase p "P1") eqn:E1.
        * apply equals_nocase_P1 in E1. split; [intros _|reflexivity].
          destruct E1 as [->| ->]; auto.
        * split; [discriminate|].
          intros [H|H]; injection H as ->; discriminate.
    - split; [discriminate | intros [H|H]; discriminate]. }
  do 3 (split; [reflexivity|]).
  split.
  { intros t.
    destruct (noETA_buckets t) as (H0 & H1 & H2).
    destruct (unassigned_buckets t) as (U0 & U1 & U2).
    repeat split; congruence. }
  split; [apply noETA_split | apply unassigned_split].
Qed.

(** C4.  [total] is the size of the collection, [open] the number of
    OPEN tasks, [closed] the number of CLOSED or MERGED tasks, and
    [open + closed = total]. *)
Theorem calculateStats_totals (LocalTZA : TimeZone) (tasks : list Task) (c : Clock) :
  let stats := fst (calculateStats LocalTZA tasks c) in
  let states := map state tasks in
  total stats = List.length tasks
  /\ open stats = count_occ TaskState_eq_dec states OPEN
  /\ closed stats
     = (count_occ TaskState_eq_dec states CLOSED
        + count_occ TaskState_eq_dec states MERGED)%nat
  /\ (open stats + closed stats = total stats)%nat.
Proof.
  cbv zeta. rewrite calculateStats_run. cbn.
  assert (HO : List.length (filter isOpen tasks)
               = count_occ TaskState_eq_dec (map state tasks) OPEN).
  { apply (length_filter_state tasks isOpen
             (fun l => count_occ TaskState_eq_dec l OPEN)); [reflexivity|].
    intros t l. unfold isOpen. cbn [count_occ].
    destruct (state t); reflexivity. }
  assert (HC : List.length (filter isClosed tasks)
               = (count_occ TaskState_eq_dec (map state tasks) CLOSED
                  + count_occ TaskState_eq_dec (map state tasks) MERGED)%nat).
  { apply (length_filter_state tasks isClosed
             (fun l => (count_occ TaskState_eq_dec l CLOSED
                        + count_occ TaskState_eq_dec l MERGED)%nat));
      [reflexivity|].
    intros t l. unfold isClosed. cbn [count_occ].
    destruct (state t); cbn; lia. }
  repeat split; try assumption.
  rewrite HO, HC.
  clear HO HC. induction tasks as [|t l IH]; [reflexivity|].
  cbn [map count_occ List.length].
  destruct (state t); cbn; lia.
Qed.

(** C9.  In every snapshot each count is the length of its list. *)
Theorem calculateStats_counts_match_lists (LocalTZA : TimeZone)
    (tasks : list Task) (c : Clock) :
  let stats := fst (calculateStats LocalTZA tasks c) in
  let noETA := noTechHandoffETAByPriority stats in
  let unassigned := unassignedByPriority stats in
  overdue stats = List.length (overdueList stats)
  /\ noTechHandoffETA stats = List.length (noTechHandoffETAList stats)
  /\ p0 noETA = List.length (p0List noETA)
  /\ p1 noETA = List.length (p1List noETA)
  /\ noPriority noETA = List.length (noPriorityList noETA)
  /\ p0 unassigned = List.length (p0List unassigned)
  /\ p1 unassigned = List.length (p1List unassigned)
  /\ noPriority unassigned = List.length (noPriorityList unassigned).
Proof. exact (counts_are_lengths LocalTZA tasks c). Qed.

(* ================================================================= *)
(** ** Dependence on the clock *)

Section ClockFacts.
Variable LocalTZA : TimeZone.

(** The calendar fields of a date depend on its local day only. *)
Lemma fields_of_localDay (a b : Date) :
  localDay LocalTZA a = localDay LocalTZA b ->
  getFullYear LocalTZA a = getFullYear LocalTZA b
  /\ getMonth LocalTZA a = getMonth LocalTZA b
  /\ getDate LocalTZA a = getDate LocalTZA b.
Proof.
  unfold localDay, getFullYear, getMonth, getDate.
  intros H.
  assert (HY : YearFromTime (LocalTime LocalTZA a)
               = YearFromTime (LocalTime LocalTZA b))
    by (unfold YearFromTime; now rewrite H).
  assert (HL : InLeapYear (LocalTime LocalTZA a)
               = InLeapYear (LocalTime LocalTZA b))
    by (unfold InLeapYear; now rewrite HY).
  assert (HD : DayWithinYear (LocalTime LocalTZA a)
               = DayWithinYear (LocalTime LocalTZA b))
    by (unfold DayWithinYear; now rewrite H, HY).
  assert (HM : MonthFromTime (LocalTime LocalTZA a)
               = MonthFromTime (LocalTime LocalTZA b))
    by (unfold MonthFromTime; now rewrite HD, HL).
  repeat split; try assumption.
  unfold DateFromTime. now rewrite HD, HL, HM.
Qed.

Lemma isOverdue_same_day (t : Task) (c1 c2 : Clock) :
  localDay LocalTZA (c1 0%nat) = localDay LocalTZA (c2 0%nat) ->
  fst (isOverdue LocalTZA t c1) = fst (isOverdue LocalTZA t c2).
Proof.
  intros H. apply fields_of_localDay in H as (HY & HM & HD).
  unfold isOverdue, bind, ret, newDate.
  destruct (dueDate t); [|reflexivity].
  destruct (TaskState_eqb (state t) CLOSED || TaskState_eqb (state t) MERGED);
    [reflexivity|].
  cbn. now rewrite HY, HM, HD.
Qed.

(** [isOverdue] leaves the clock as it is or takes one reading. *)
Lemma isOverdue_clock (t : Task) (c : Clock) :
  (forall n, snd (isOverdue LocalTZA t c) n = c n)
  \/ (forall n, snd (isOverdue LocalTZA t c) n = c (S n)).
Proof.
  unfold isOverdue, bind, ret, newDate.
  destruct (dueDate t); [|now left].
  destruct (TaskState_eqb (state t) CLOSED || TaskState_eqb (state t) MERGED);
    [now left | now right].
Qed.

Lemma isOverdue_onDay (today : Z) (t : Task) (c : Clock) :
  onDay LocalTZA today c ->
  onDay LocalTZA today (snd (isOverdue LocalTZA t c)).
Proof.
  intros H n.
  destruct (isOverdue_clock t c) as [E|E]; rewrite E; apply H.
Qed.

Lemma filterM_isOverdue_onDay (today : Z) (tasks : list Task) :
  forall c1 c2,
    onDay LocalTZA today c1 -> onDay LocalTZA today c2 ->
    fst (filterM (isOverdue LocalTZA) tasks c1)
    = fst (filterM (isOverdue LocalTZA) tasks c2)
    /\ onDay LocalTZA today (snd (filterM (isOverdue LocalTZA) tasks c1)).
Proof.
  induction tasks as [|t l IH]; intros c1 c2 H1 H2.
  - cbn. split; [reflexivity | exact H1].
  - cbn [filterM]. unfold bind, ret.
    pose proof (isOverdue_same_day t c1 c2) as Hb.
    pose proof (isOverdue_onDay today t c1 H1) as H1'.
    pose proof (isOverdue_onDay today t c2 H2) as H2'.
    destruct (isOverdue LocalTZA t c1) as [b1 c1'].
    destruct (isOverdue LocalTZA t c2) as [b2 c2'].
    cbn [fst snd] in *.
    rewrite (H1 0%nat), (H2 0%nat) in Hb. specialize (Hb eq_refl).
    subst b2.
    destruct (IH c1' c2' H1' H2') as [E Hd].
    destruct (filterM (isOverdue LocalTZA) l c1') as [r1 d1].
    destruct (filterM (isOverdue LocalTZA) l c2') as [r2 d2].
    cbn [fst snd] in *. subst r2. split; [reflexivity | exact Hd].
Qed.

Lemma calculateStats_onDay (today : Z) (tasks : list Task) (c1 c2 : Clock) :
  onDay LocalTZA today c1 -> onDay LocalTZA today c2 ->
  fst (calculateStats LocalTZA tasks c1)
  = fst (calculateStats LocalTZA tasks c2)
  /\ onDay LocalTZA today (snd (calculateStats LocalTZA tasks c1)).
Proof.
  intros H1 H2.
  destruct (filterM_isOverdue_onDay today tasks c1 c2 H1 H2) as [E Hd].
  split.
  - rewrite !calculateStats_run. cbv zeta. now rewrite E.
  - unfold calculateStats, bind, ret.
    destruct (filterM (isOverdue LocalTZA) tasks c1). exact Hd.
Qed.
End ClockFacts.

(** C5, as far as it holds.  [isOverdue] and [calculateStats] take
    "now" from the system clock.  When every reading of the clock
    falls on one local calendar day, as for a fixed "now", their
    results are determined: evaluations under two such clocks, and two
    evaluations in a row, yield equal [TaskStats]. *)
Theorem calculateStats_deterministic_on_a_day (LocalTZA : TimeZone) (today : Z)
    (tasks : list Task) (c1 c2 : Clock) :
  onDay LocalTZA today c1 ->
  onDay LocalTZA today c2 ->
  (forall t, fst (isOverdue LocalTZA t c1) = fst (isOverdue LocalTZA t c2))
  /\ fst (calculateStats LocalTZA tasks c1)
     = fst (calculateStats LocalTZA tasks c2)
  /\ fst (calculateStats LocalTZA tasks
            (snd (calculateStats LocalTZA tasks c1)))
     = fst (calculateStats LocalTZA tasks c1).
Proof.
  intros H1 H2.
  destruct (calculateStats_onDay LocalTZA today tasks c1 c2 H1 H2) as [E Hd].
  split; [|split].
  - intros t. apply isOverdue_same_day.
    now rewrite (H1 0%nat), (H2 0%nat).
  - exact E.
  - apply (calculateStats_onDay LocalTZA today tasks _ c1 Hd H1).
Qed.

(** Three tasks under a clock that stands still on 2 November 2025. *)
Lemma calculateStats_deterministic_on_a_day_witness :
  let tasks :=
    [ sampleTask "a" OPEN [] (Some "p0"%string) nov1 (Some nov1);
      sampleTask "b" OPEN ["ann"%string] None nov1 (Some nov3);
      sampleTask "c" CLOSED [] None nov1 None ] in
  fst (calculateStats utc tasks (frozen nov2))
  = fst (calculateStats utc tasks (frozen (nov2 + 1000))).
Proof.
  cbv zeta.
  refine (proj1 (proj2 (calculateStats_deterministic_on_a_day utc
            (localDay utc nov2) _ (frozen nov2) (frozen (nov2 + 1000)) _ _)));
    intros n; reflexivity.
Defined.

(** C5 as stated fails: "now" is read from the clock at every
    classification, so two evaluations on the same collection differ
    when midnight passes between them.  The task is due on 3 November
    2025; the first evaluation reads the clock one millisecond before
    that day, the second on it. *)
Lemma calculateStats_clock_counterexample :
  let tasks := [sampleTask "due-nov3" OPEN [] None nov1 (Some nov3)] in
  let first := calculateStats utc tasks aroundMidnight in
  let second := calculateStats utc tasks (snd first) in
  overdue (fst first) = 0%nat
  /\ overdue (fst second) = 1%nat
  /\ fst first <> fst second.
Proof.
  cbv zeta. split; [reflexivity|]. split; [reflexivity|].
  intros H. apply (f_equal overdue) in H. vm_compute in H. discriminate.
Qed.

(* ================================================================= *)
(** ** Sorting *)

Section SortFacts.
Variable compareFn : Task -> Task -> Z.

Lemma sort_insert_perm (x : Task) (l : list Task) :
  Permutation (sort_insert compareFn x l) (x :: l).
Proof.
  induction l as [|y l IH]; cbn [sort_insert]; [reflexivity|].
  destruct (compareFn x y <=? 0); [reflexivity|].
  rewrite IH. apply perm_swap.
Qed.

Lemma Array_sort_perm (l : list Task) :
  Permutation (Array_sort compareFn l) l.
Proof.
  induction l as [|x l IH]; cbn [Array_sort]; [reflexivity|].
  rewrite sort_insert_perm. now constructor.
Qed.

(** Stability: a class of tasks none of which the comparison puts
    after another keeps its order. *)
Lemma sort_insert_stable (p : Task -> bool) (x : Task) (l : list Task) :
  (forall a b, p a = true -> p b = true -> compareFn a b <= 0) ->
  filter p (sort_insert compareFn x l) = filter p (x :: l).
Proof.
  intros Hp. induction l as [|y l IH]; cbn [sort_insert]; [reflexivity|].
  destruct (Z.leb_spec (compareFn x y) 0) as [Hle|Hgt]; [reflexivity|].
  cbn [filter] in *. rewrite IH.
  destruct (p x) eqn:Ex, (p y) eqn:Ey; try reflexivity.
  specialize (Hp x y Ex Ey). lia.
Qed.

Lemma Array_sort_stable (p : Task -> bool) (l : list Task) :
  (forall a b, p a = true -> p b = true -> compareFn a b <= 0) ->
  filter p (Array_sort compareFn l) = filter p l.
Proof.
  intros Hp. induction l as [|x l IH]; cbn [Array_sort]; [reflexivity|].
  rewrite sort_insert_stable by exact Hp.
  cbn [filter]. now rewrite IH.
Qed.

Hypothesis total : forall a b, compareFn a b <= 0 \/ compareFn b a <= 0.
Hypothesis trans :
  forall a b c, compareFn a b <= 0 -> compareFn b c <= 0 -> compareFn a c <= 0.

Lemma sort_insert_sorted (x : Task) (l : list Task) :
  StronglySorted (notAfter compareFn) l ->
  StronglySorted (notAfter compareFn) (sort_insert compareFn x l).
Proof.
  induction 1 as [|y l Hs IH Hy]; cbn [sort_insert].
  - constructor; constructor.
  - destruct (Z.leb_spec (compareFn x y) 0) as [Hle|Hgt].
    + constructor; [now constructor|].
      constructor; [exact Hle|].
      eapply Forall_impl; [|exact Hy].
      intros z Hz. unfold notAfter in *. eauto.
    + constructor; [exact IH|].
      eapply Permutation_Forall;
        [apply Permutation_sym, sort_insert_perm|].
      constructor; [|exact Hy].
      unfold notAfter. destruct (total y x); lia.
Qed.

Lemma Array_sort_sorted (l : list Task) :
  StronglySorted (notAfter compareFn) (Array_sort compareFn l).
Proof.
  induction l as [|x l IH]; cbn [Array_sort]; [constructor|].
  now apply sort_insert_sorted.
Qed.

(** Two sorted arrangements with the same tasks and the same order
    among tied tasks are the same list. *)
Lemma stable_sorted_unique (l1 : list Task) :
  forall l2,
    Permutation l1 l2 ->
    StronglySorted (notAfter compareFn) l1 ->
    StronglySorted (notAfter compareFn) l2 ->
    (forall x, filter (tied compareFn x) l1 = filter (tied compareFn x) l2) ->
    l1 = l2.
Proof.
  assert (refl : forall a, compareFn a a <= 0)
    by (intros a; destruct (total a a); assumption).
  induction l1 as [|a t1 IH]; intros l2 HP H1 H2 HF.
  - now apply Permutation_nil in HP.
  - destruct l2 as [|b t2];
      [apply Permutation_sym, Permutation_nil in HP; discriminate|].
    apply StronglySorted_inv in H1 as [H1 Ha].
    apply StronglySorted_inv in H2 as [H2 Hb].
    assert (Hab : compareFn a b <= 0).
    { assert (Hin : In b (a :: t1))
        by (eapply Permutation_in; [apply Permutation_sym, HP | now left]).
      destruct Hin as [->|Hin]; [apply refl|].
      rewrite Forall_forall in Ha. now apply Ha. }
    assert (Hba : compareFn b a <= 0).
    { assert (Hin : In a (b :: t2))
        by (eapply Permutation_in; [exact HP | now left]).
      destruct Hin as [->|Hin]; [apply refl|].
      rewrite Forall_forall in Hb. now apply Hb. }
    assert (E : a = b).
    { assert (Taa : tied compareFn a a = true).
      { unfold tied. pose proof (refl a) as Haa.
        apply Z.leb_le in Haa. now rewrite Haa. }
      assert (Tab : tied compareFn a b = true).
      { unfold tied. apply Z.leb_le in Hab, Hba. now rewrite Hab, Hba. }
      specialize (HF a). cbn [filter] in HF. rewrite Taa, Tab in HF.
      now injection HF. }
    subst b. f_equal. apply IH; try assumption.
    + now apply Permutation_cons_inv in HP.
    + intros x. specialize (HF x). cbn [filter] in HF.
      destruct (tied compareFn x a); [now injection HF | exact HF].
Qed.

(** So the result of a stable sort does not depend on the algorithm:
    it is [Array_sort]. *)
Lemma Array_sort_determined (l r : list Task) :
  Permutation r l ->
  StronglySorted (notAfter compareFn) r ->
  (forall x, filter (tied compareFn x) r = filter (tied compareFn x) l) ->
  r = Array_sort compareFn l.
Proof.
  intros HP HS HF. apply stable_sorted_unique.
  - rewrite HP. apply Permutation_sym, Array_sort_perm.
  - exact HS.
  - apply Array_sort_sorted.
  - intros x. rewrite HF. symmetry. apply Array_sort_stable.
    intros a b Ha Hb. unfold tied in *.
    apply andb_prop in Ha as [_ Ha]. apply andb_prop in Hb as [Hb _].
    apply Z.leb_le in Ha, Hb. eauto.
Qed.
End SortFacts.

(** In a sorted list the tasks of a class that the comparison never
    puts behind the others come first. *)
Lemma sorted_class_first (compareFn : Task -> Task -> Z) (p : Task -> bool)
    (l : list Task) :
  (forall a b, p a = false -> p b = true -> compareFn a b > 0) ->
  StronglySorted (notAfter compareFn) l ->
  l = filter p l ++ filter (fun t => negb (p t)) l.
Proof.
  intros Hp. induction 1 as [|a l Hs IH Ha]; [reflexivity|].
  cbn [filter]. destruct (p a) eqn:Ea; cbn [negb app].
  - now rewrite <- IH.
  - assert (Hall : Forall (fun b => p b = false) l).
    { eapply Forall_impl; [|exact Ha].
      intros b Hb. destruct (p b) eqn:Eb; [|reflexivity].
      specialize (Hp a b Ea Eb). unfold notAfter in Hb. lia. }
    clear IH Hs Ha.
    assert (E : filter p l = [] /\ filter (fun t => negb (p t)) l = l).
    { induction Hall as [|b l Hb _ [IH1 IH2]]; [now split|].
      cbn [filter]. rewrite Hb. cbn [negb]. now rewrite IH1, IH2. }
    destruct E as [-> ->]. reflexivity.
Qed.

Lemma compareDueDate_total (ascending : bool) (a b : Task) :
  compareDueDate ascending a b <= 0 \/ compareDueDate ascending b a <= 0.
Proof.
  unfold compareDueDate, JS.not_date, getTime.
  destruct (dueDate a), (dueDate b), ascending; cbn; lia.
Qed.

Lemma compareDueDate_trans (ascending : bool) (a b c : Task) :
  compareDueDate ascending a b <= 0 ->
  compareDueDate ascending b c <= 0 ->
  compareDueDate ascending a c <= 0.
Proof.
  unfold compareDueDate, JS.not_date, getTime.
  destruct (dueDate a), (dueDate b), (dueDate c), ascending; cbn; lia.
Qed.

Lemma compareDueDate_dated_first (ascending : bool) (a b : Task) :
  hasDueDate a = false -> hasDueDate b = true ->
  compareDueDate ascending a b > 0.
Proof.
  unfold compareDueDate, hasDueDate, JS.not_date.
  destruct (dueDate a), (dueDate b); intros; try discriminate; cbn; lia.
Qed.

Lemma compareDueDate_undated (ascending : bool) (a b : Task) :
  noDueDate a = true -> noDueDate b = true ->
  compareDueDate ascending a b <= 0.
Proof.
  unfold compareDueDate, noDueDate, hasDueDate, JS.not_date.
  destruct (dueDate a), (dueDate b); intros; try discriminate; cbn; lia.
Qed.

Lemma compareDueDate_same_time (ascending : bool) (d : Date) (a b : Task) :
  dueAt d a = true -> dueAt d b = true ->
  compareDueDate ascending a b <= 0.
Proof.
  unfold compareDueDate, dueAt, JS.not_date, getTime.
  destruct (dueDate a), (dueDate b); intros Ha Hb; try discriminate;
    apply Z.eqb_eq in Ha, Hb; subst; destruct ascending; cbn; lia.
Qed.

Lemma sorted_dueTimes (ascending : bool) (l : list Task) :
  StronglySorted (notAfter (compareDueDate ascending)) l ->
  StronglySorted (dueOrder ascending) (dueTimes l).
Proof.
  induction 1 as [|a l Hs IH Ha]; [constructor|].
  unfold dueTimes in *. cbn [flat_map].
  destruct (dueDate a) as [da|] eqn:Ea; cbn [app]; [|exact IH].
  constructor; [exact IH|].
  clear IH Hs. induction Ha as [|b l Hb _ IH]; cbn [flat_map]; [constructor|].
  destruct (dueDate b) as [db|] eqn:Eb; cbn [app]; [|exact IH].
  constructor; [|exact IH].
  unfold notAfter, compareDueDate, JS.not_date, getTime in Hb.
  rewrite Ea, Eb in Hb. unfold dueOrder.
  destruct ascending; cbn in Hb; lia.
Qed.

Lemma Store_read_alloc_old (r : Store.Ref) (a : list Task) (s : Store.t) :
  Store.read r s <> None ->
  Store.read r (snd (Store.alloc a s)) = Store.read r s.
Proof.
  unfold Store.read, Store.alloc. cbn [snd]. intros H.
  apply nth_error_app1. now apply nth_error_Some.
Qed.

Lemma Store_read_alloc_new (a : list Task) (s : Store.t) :
  Store.read (fst (Store.alloc a s)) (snd (Store.alloc a s)) = Some a.
Proof.
  unfold Store.read, Store.alloc. cbn [fst snd].
  rewrite nth_error_app2, Nat.sub_diag by lia. reflexivity.
Qed.

Lemma Store_read_write_same (r : Store.Ref) (a : list Task) (s : Store.t) :
  Store.read r s <> None -> Store.read r (Store.write r a s) = Some a.
Proof.
  unfold Store.read. revert r.
  induction s as [|b s IH]; intros [|r] H; cbn in *; try congruence.
  now apply IH.
Qed.

Lemma Store_read_write_other (r r' : Store.Ref) (a : list Task) (s : Store.t) :
  r <> r' -> Store.read r' (Store.write r a s) = Store.read r' s.
Proof.
  unfold Store.read. revert r r'.
  induction s as [|b s IH]; intros [|r] [|r'] H; cbn; try congruence.
  apply IH. congruence.
Qed.

(** C6.  [sortByDueDate] returns a new array and leaves the caller's
    array, and every other array, as it was.  The new array holds the
    same tasks; the dated tasks come first, ordered by due date,
    earliest first when the flag is true or left out and latest first
    otherwise; the undated tasks follow; the undated tasks keep
    their input order, and so do the tasks due at one time. *)
Theorem sortByDueDate_spec (s : Store.t) (tasks : Store.Ref)
    (ascending : option bool) (elems : list Task) :
  Store.read tasks s = Some elems ->
  let direction := match ascending with Some b => b | None => true end in
  exists (copy : Store.Ref) (s' : Store.t) (result : list Task),
    sortByDueDate tasks ascending s = Some (copy, s')
    /\ Store.read copy s' = Some result
    /\ Permutation result elems
    /\ result = filter hasDueDate result ++ filter noDueDate result
    /\ StronglySorted (dueOrder direction) (dueTimes result)
    /\ filter noDueDate result = filter noDueDate elems
    /\ (forall d, filter (dueAt d) result = filter (dueAt d) elems)
    /\ Store.read tasks s' = Some elems
    /\ (forall r, Store.read r s <> None -> Store.read r s' = Store.read r s).
Proof.
  intros Hread direction.
  set (cmp := compareDueDate direction).
  set (copy := fst (Store.alloc elems s)).
  set (s1 := snd (Store.alloc elems s)).
  assert (Hnew : Store.read copy s1 = Some elems)
    by apply Store_read_alloc_new.
  assert (Hfresh : forall r, Store.read r s <> None -> copy <> r).
  { intros r Hr. apply nth_error_Some in Hr.
    subst copy. unfold Store.alloc. cbn [fst]. lia. }
  assert (Hkeep : forall r, Store.read r s <> None ->
            Store.read r (Store.write copy (Array_sort cmp elems) s1)
            = Store.read r s).
  { intros r Hr.
    rewrite Store_read_write_other by (apply Hfresh; exact Hr).
    apply Store_read_alloc_old. exact Hr. }
  assert (Hsorted : StronglySorted (notAfter cmp) (Array_sort cmp elems)).
  { apply Array_sort_sorted.
    - apply compareDueDate_total.
    - apply compareDueDate_trans. }
  exists copy, (Store.write copy (Array_sort cmp elems) s1),
    (Array_sort cmp elems).
  split.
  { unfold sortByDueDate. rewrite Hread.
    change (Store.alloc elems s) with (copy, s1). cbv beta iota.
    fold direction. fold cmp. now rewrite Hnew. }
  split.
  { apply Store_read_write_same. congruence. }
  split; [apply Array_sort_perm|].
  split.
  { apply (sorted_class_first cmp hasDueDate); [|exact Hsorted].
    apply compareDueDate_dated_first. }
  split; [apply sorted_dueTimes; exact Hsorted|].
  split.
  { apply Array_sort_stable. apply compareDueDate_undated. }
  split.
  { intros d. apply Array_sort_stable. apply compareDueDate_same_time. }
  split; [|exact Hkeep].
  rewrite Hkeep by congruence. exact Hread.
Qed.

(** The sample array, sorted with the flag left out. *)
Lemma sortByDueDate_spec_witness :
  exists (copy : Store.Ref) (s' : Store.t) (result : list Task),
    sortByDueDate 0%nat None sampleStore = Some (copy, s')
    /\ Store.read copy s' = Some result
    /\ Permutation result (hd [] sampleStore)
    /\ result = filter hasDueDate result ++ filter noDueDate result
    /\ StronglySorted (dueOrder true) (dueTimes result)
    /\ filter noDueDate result = filter noDueDate (hd [] sampleStore)
    /\ (forall d, filter (dueAt d) result
                  = filter (dueAt d) (hd [] sampleStore))
    /\ Store.read 0%nat s' = Some (hd [] sampleStore)
    /\ (forall r, Store.read r sampleStore <> None ->
                  Store.read r s' = Store.read r sampleStore).
Proof.
  apply (sortByDueDate_spec sampleStore 0%nat None (hd [] sampleStore)).
  reflexivity.
Defined.

(* ================================================================= *)
(** ** Filtering by creation date *)

Lemma inDateRange_iff (startDate endDate : option Date) (t : Task) :
  inDateRange startDate endDate t = true
  <-> (startDate = None \/ exists s, startDate = Some s /\ s <= createdAt t)
      /\ (endDate = None \/ exists e, endDate = Some e /\ createdAt t <= e).
Proof.
  unfold inDateRange. rewrite andb_true_iff.
  assert (HA : forall A A' B B' : Prop,
             (A <-> A') -> (B <-> B') -> (A /\ B <-> A' /\ B')) by tauto.
  apply HA; clear HA.
  - destruct startDate as [s|].
    + rewrite Z.leb_le. split.
      * intros H. right. now exists s.
      * intros [H|(s' & H & Hs)]; [discriminate | now injection H as ->].
    + split; [now left | reflexivity].
  - destruct endDate as [e|].
    + rewrite Z.leb_le. split.
      * intros H. right. now exists e.
      * intros [H|(e' & H & He)]; [discriminate | now injection H as ->].
    + split; [now left | reflexivity].
Qed.

(** C8.  [filterByDateRange] keeps, in their order, exactly the tasks
    created not before the start bound, when there is one, and not
    after the end bound, when there is one; a task created at a bound
    is kept. *)
Theorem filterByDateRange_spec (tasks : list Task)
    (startDate endDate : option Date) :
  filterByDateRange tasks startDate endDate
  = filter (inDateRange startDate endDate) tasks
  /\ (forall t,
        In t (filterByDateRange tasks startDate endDate)
        <-> In t tasks
            /\ (startDate = None
                \/ exists s, startDate = Some s /\ s <= createdAt t)
            /\ (endDate = None
                \/ exists e, endDate = Some e /\ createdAt t <= e))
  /\ (forall t,
        In t tasks ->
        In t (filterByDateRange tasks (Some (createdAt t)) None)
        /\ In t (filterByDateRange tasks None (Some (createdAt t)))
        /\ In t (filterByDateRange tasks (Some (createdAt t))
                   (Some (createdAt t))))
  /\ filterByDateRange tasks None None = tasks.
Proof.
  assert (E : forall s e,
             filterByDateRange tasks s e = filter (inDateRange s e) tasks).
  { intros s e. unfold filterByDateRange. apply filter_ext_eq. intros t.
    unfold inDateRange.
    destruct s as [s|], e as [e|]; cbn [andb];
      rewrite ?Z.gtb_ltb;
      repeat match goal with
             | |- context [?a <? ?b] => destruct (Z.ltb_spec a b)
             | |- context [?a <=? ?b] => destruct (Z.leb_spec a b)
             end; cbn; try reflexivity; lia. }
  split; [apply E|].
  split.
  { intros t. rewrite E, filter_In, inDateRange_iff. reflexivity. }
  split.
  { intros t Ht. rewrite !E, !filter_In. unfold inDateRange.
    rewrite !Z.leb_refl. auto. }
  rewrite E. clear E. induction tasks as [|t l IH]; [reflexivity|].
  cbn. now rewrite IH.
Qed.

(* ================================================================= *)
(** ** Grouping by assignee *)

(** C10.  The sentinel key is not kept apart from user names: a task
    without assignees and a task assigned to a user called
    "unassigned" end up in the one group "unassigned". *)
Theorem groupByAssignee_sentinel_collision :
  exists (t1 t2 : Task),
    assignees t1 = []
    /\ assignees t2 = ["unassigned"%string]
    /\ groupByAssignee [t1; t2] = Some [("unassigned"%string, [t1; t2])].
Proof.
  exists (sampleTask "nobody" OPEN [] None nov1 None),
    (sampleTask "somebody" OPEN ["unassigned"%string] None nov1 None).
  repeat split.
Qed.

Lemma JSMap_get_set_same (k : string) (v : list Task) (m : JSMap.t) :
  JSMap.get k (JSMap.set k v m) = Some v.
Proof.
  induction m as [|[k' v'] m IH]; cbn.
  - now rewrite String.eqb_refl.
  - destruct (String.eqb k' k) eqn:E; cbn; now rewrite E.
Qed.

Lemma JSMap_get_set_other (k k' : string) (v : list Task) (m : JSMap.t) :
  k <> k' -> JSMap.get k' (JSMap.set k v m) = JSMap.get k' m.
Proof.
  intros Hne. induction m as [|[k0 v0] m IH]; cbn.
  - destruct (String.eqb_spec k k'); [contradiction | reflexivity].
  - destruct (String.eqb_spec k0 k) as [->|Hk]; cbn.
    + destruct (String.eqb_spec k k'); [contradiction | reflexivity].
    + now rewrite IH.
Qed.

Lemma JSMap_size_sum_set (k : string) (v : list Task) (m : JSMap.t) :
  (JSMap.size_sum (JSMap.set k v m) + List.length (groupOf k m)
   = JSMap.size_sum m + List.length v)%nat.
Proof.
  unfold groupOf. induction m as [|[k' v'] m IH]; cbn.
  - lia.
  - destruct (String.eqb k' k); cbn; lia.
Qed.

(** Filing a task under a key: the key's group grows by the task at
    its end, the other groups stay, nothing throws. *)
Lemma addToGroup_spec (k : string) (task : Task) (m : JSMap.t) :
  exists m',
    addToGroup k task m = Some m'
    /\ JSMap.get k m' = Some (groupOf k m ++ [task])
    /\ (forall k', k <> k' -> JSMap.get k' m' = JSMap.get k' m)
    /\ JSMap.size_sum m' = S (JSMap.size_sum m).
Proof.
  unfold addToGroup, JSMap.has, JSMap.push.
  pose proof (JSMap_size_sum_set k (groupOf k m ++ [task]) m) as Hsz.
  unfold groupOf in *.
  destruct (JSMap.get k m) as [arr|] eqn:E; cbn [negb].
  - rewrite E. eexists. split; [reflexivity|].
    split; [apply JSMap_get_set_same|].
    split; [intros k' Hk; now apply JSMap_get_set_other|].
    rewrite length_app in Hsz. cbn in Hsz. lia.
  - rewrite JSMap_get_set_same. cbn [app] in *. eexists.
    split; [reflexivity|].
    split; [apply JSMap_get_set_same|].
    split.
    + intros k' Hk. now rewrite !JSMap_get_set_other.
    + pose proof (JSMap_size_sum_set k [] m) as H1.
      pose proof (JSMap_size_sum_set k [task] (JSMap.set k [] m)) as H2.
      unfold groupOf in H1, H2. rewrite E in H1.
      rewrite JSMap_get_set_same in H2. cbn in H1, H2. lia.
Qed.

(** The loop over the keys of one task. *)
Lemma for_of_keys_spec (task : Task) (ks : list string) :
  forall m : JSMap.t,
  exists m',
    for_of ks (fun grouped assignee => addToGroup assignee task grouped) m
    = Some m'
    /\ (forall k, groupOf k m'
                  = groupOf k m ++ repeat task (count_occ string_dec ks k))
    /\ (forall k, JSMap.has k m'
                  = JSMap.has k m || existsb (String.eqb k) ks)
    /\ JSMap.size_sum m' = (JSMap.size_sum m + List.length ks)%nat.
Proof.
  induction ks as [|a ks IH]; intros m; cbn [for_of].
  - exists m. split; [reflexivity|].
    split; [intros k; cbn; now rewrite app_nil_r|].
    split; [intros k; cbn; now rewrite orb_false_r|].
    cbn. lia.
  - destruct (addToGroup_spec a task m) as (m1 & -> & Ha & Hother & Hsz).
    destruct (IH m1) as (m' & -> & Hg & Hh & Hs).
    exists m'. split; [reflexivity|].
    split; [|split].
    + intros k. rewrite Hg. cbn [count_occ].
      destruct (string_dec a k) as [->|Hne].
      * unfold groupOf at 1. rewrite Ha. cbn [repeat].
        now rewrite <- app_assoc.
      * unfold groupOf. now rewrite (Hother k Hne).
    + intros k. rewrite Hh. cbn [existsb]. unfold JSMap.has.
      destruct (String.eqb_spec k a) as [->|Hne].
      * rewrite Ha. cbn. now rewrite orb_true_r.
      * rewrite (Hother k) by congruence. reflexivity.
    + rewrite Hs, Hsz. cbn. lia.
Qed.

(** The body of the loop of [groupByAssignee] files the task under
    each of its keys. *)
Lemma groupByAssignee_body (task : Task) (m : JSMap.t) :
  (if (List.length (assignees task) =? 0)%nat
   then addToGroup "unassigned" task m
   else for_of (assignees task)
          (fun grouped assignee => addToGroup assignee task grouped) m)
  = for_of (groupKeys task)
      (fun grouped assignee => addToGroup assignee task grouped) m.
Proof.
  unfold groupKeys. destruct (assignees task) as [|a l]; [|reflexivity].
  cbn. destruct (addToGroup "unassigned" task m); reflexivity.
Qed.

Lemma length_groupKeys (t : Task) :
  List.length (groupKeys t) = Nat.max 1 (List.length (assignees t)).
Proof. unfold groupKeys. destruct (assignees t); cbn; lia. Qed.

(** The loop over the collection, from any mapping. *)
Lemma groupByAssignee_loop (tasks : list Task) :
  forall m : JSMap.t,
  exists m',
    for_of tasks
      (fun grouped task =>
         if (List.length (assignees task) =? 0)%nat
         then addToGroup "unassigned" task grouped
         else for_of (assignees task)
                (fun grouped assignee => addToGroup assignee task grouped)
                grouped) m
    = Some m'
    /\ (forall k, groupOf k m' = groupOf k m ++ expectedGroup k tasks)
    /\ (forall k, JSMap.has k m' = JSMap.has k m || isGroupKey k tasks)
    /\ JSMap.size_sum m' = (JSMap.size_sum m + fanOut tasks)%nat.
Proof.
  induction tasks as [|t l IH]; intros m; cbn [for_of].
  - exists m. split; [reflexivity|].
    split; [intros k; cbn; now rewrite app_nil_r|].
    split; [intros k; cbn; now rewrite orb_false_r|].
    cbn. lia.
  - rewrite groupByAssignee_body.
    destruct (for_of_keys_spec t (groupKeys t) m) as (m1 & -> & Hg & Hh & Hs).
    destruct (IH m1) as (m' & -> & Hg' & Hh' & Hs').
    exists m'. split; [reflexivity|].
    split; [|split].
    + intros k. rewrite Hg', Hg. unfold expectedGroup. cbn [flat_map].
      now rewrite app_assoc.
    + intros k. rewrite Hh', Hh. unfold isGroupKey. cbn [existsb].
      now rewrite orb_assoc.
    + rewrite Hs', Hs, length_groupKeys. unfold fanOut. cbn [map].
      change (list_sum (?x :: ?r)) with (x + list_sum r)%nat. lia.
Qed.

Lemma In_expectedGroup (k : string) (t : Task) (tasks : list Task) :
  In t tasks -> In k (groupKeys t) -> In t (expectedGroup k tasks).
Proof.
  intros Ht Hk. unfold expectedGroup. apply in_flat_map.
  exists t. split; [exact Ht|].
  apply (count_occ_In string_dec) in Hk.
  destruct (count_occ string_dec (groupKeys t) k); [lia | now left].
Qed.

(** C7.  [groupByAssignee] files every task under each of its keys,
    the sentinel "unassigned" for a task without assignees and each
    assignee otherwise, one entry per key and in collection order; so
    the group sizes add up to the sum of [max(1, assignees.length)].
    The keys of the mapping are the keys of the tasks, and an empty
    collection gives the empty mapping. *)
Theorem groupByAssignee_fan_out (tasks : list Task) :
  (exists grouped : JSMap.t,
     groupByAssignee tasks = Some grouped
     /\ (forall k, groupOf k grouped = expectedGroup k tasks)
     /\ (forall t, In t tasks -> assignees t = [] ->
                   In t (groupOf "unassigned" grouped))
     /\ (forall t a, In t tasks -> In a (assignees t) ->
                     In t (groupOf a grouped))
     /\ (forall k, JSMap.has k grouped = isGroupKey k tasks)
     /\ JSMap.size_sum grouped = fanOut tasks)
  /\ groupByAssignee [] = Some JSMap.empty.
Proof.
  split; [|reflexivity].
  unfold groupByAssignee.
  destruct (groupByAssignee_loop tasks JSMap.empty)
    as (grouped & E & Hg & Hh & Hs).
  exists grouped. split; [exact E|].
  assert (Hg' : forall k, groupOf k grouped = expectedGroup k tasks)
    by (intros k; now rewrite Hg).
  split; [exact Hg'|].
  split.
  { intros t Ht Ha. rewrite Hg'. apply In_expectedGroup; [exact Ht|].
    unfold groupKeys. rewrite Ha. now left. }
  split.
  { intros t a Ht Ha. rewrite Hg'. apply In_expectedGroup; [exact Ht|].
    unfold groupKeys. destruct (assignees t); [contradiction | exact Ha]. }
  split; [intros k; now rewrite Hh|].
  now rewrite Hs.
Qed.


(* ================================================================= *)
(** * Further properties of the service *)

(** ** Filing tasks under keys *)

Lemma for_of_app {A S} (body : S -> A -> option S) (l1 l2 : list A) :
  forall s,
    for_of (l1 ++ l2) body s
    = match for_of l1 body s with
      | Some s' => for_of l2 body s'
      | None => None
      end.
Proof.
  induction l1 as [|x l1 IH]; intros s; cbn [for_of app]; [reflexivity|].
  destruct (body s x); [apply IH | reflexivity].
Qed.

Lemma for_of_map {A B S} (f : A -> B) (body : S -> B -> option S)
    (l : list A) :
  forall s, for_of (map f l) body s = for_of l (fun s x => body s (f x)) s.
Proof.
  induction l as [|x l IH]; intros s; cbn [for_of map]; [reflexivity|].
  destruct (body s (f x)); [apply IH | reflexivity].
Qed.

Lemma has_keysOf (k : string) (m : JSMap.t) :
  JSMap.has k m = existsb (String.eqb k) (keysOf m).
Proof.
  unfold JSMap.has, keysOf.
  induction m as [|[k' v] m IH]; cbn; [reflexivity|].
  rewrite (String.eqb_sym k k').
  destruct (String.eqb k' k); [reflexivity | exact IH].
Qed.

Lemma keysOf_set (k : string) (v : list Task) (m : JSMap.t) :
  keysOf (JSMap.set k v m)
  = if JSMap.has k m then keysOf m else keysOf m ++ [k].
Proof.
  unfold JSMap.has, keysOf.
  induction m as [|[k' v'] m IH]; cbn; [reflexivity|].
  destruct (String.eqb k' k); cbn; [reflexivity|].
  rewrite IH. now destruct (JSMap.get k m).
Qed.

Lemma has_set (k k' : string) (v : list Task) (m : JSMap.t) :
  JSMap.has k' (JSMap.set k v m) = JSMap.has k' m || String.eqb k' k.
Proof.
  unfold JSMap.has.
  destruct (String.eqb_spec k' k) as [->|Hne].
  - rewrite JSMap_get_set_same. now rewrite orb_true_r.
  - rewrite JSMap_get_set_other by congruence. now rewrite orb_false_r.
Qed.

(** The keys after filing one task. *)
Lemma addToGroup_keys (k : string) (task : Task) (m m' : JSMap.t) :
  addToGroup k task m = Some m' ->
  keysOf m' = (if JSMap.has k m then keysOf m else keysOf m ++ [k])
  /\ (forall k', JSMap.has k' m' = JSMap.has k' m || String.eqb k' k).
Proof.
  unfold addToGroup, JSMap.push.
  destruct (JSMap.has k m) eqn:Eh; cbn [negb].
  - destruct (JSMap.get k m) as [arr|] eqn:Eg; [|discriminate].
    intros H. injection H as <-. split.
    + now rewrite keysOf_set, Eh.
    + intros k'. apply has_set.
  - rewrite JSMap_get_set_same. intros H. injection H as <-. split.
    + rewrite !keysOf_set, has_set, Eh, String.eqb_refl. reflexivity.
    + intros k'. rewrite !has_set.
      now destruct (JSMap.has k' m), (String.eqb k' k).
Qed.

Lemma filter_filter_and {A} (p q : A -> bool) (l : list A) :
  filter p (filter q l) = filter (fun x => p x && q x) l.
Proof.
  induction l as [|x l IH]; cbn [filter]; [reflexivity|].
  destruct (q x) eqn:Eq; cbn [filter]; rewrite ?Eq, IH.
  - now destruct (p x).
  - now rewrite andb_false_r.
Qed.

(** Filing a sequence of pairs never throws; every group grows by the
    tasks filed under its key, in order, and a new key goes behind the
    keys there are, at the place of its first occurrence. *)
Lemma filePairs_spec (pairs : list (string * Task)) :
  forall m : JSMap.t,
  exists m',
    filePairs pairs m = Some m'
    /\ (forall k, groupOf k m'
                 = groupOf k m
                   ++ map snd (filter (fun kt => String.eqb (fst kt) k) pairs))
    /\ (forall k, JSMap.has k m'
                 = JSMap.has k m || existsb (String.eqb k) (map fst pairs))
    /\ JSMap.size_sum m' = (JSMap.size_sum m + List.length pairs)%nat
    /\ keysOf m'
       = keysOf m
         ++ filter (fun k => negb (JSMap.has k m)) (firstSeen (map fst pairs)).
Proof.
  unfold filePairs.
  induction pairs as [|[k t] pairs IH]; intros m; cbn [for_of].
  - exists m. split; [reflexivity|].
    split; [intros k; cbn; now rewrite app_nil_r|].
    split; [intros k; cbn; now rewrite orb_false_r|].
    split; [cbn; lia|]. cbn. now rewrite app_nil_r.
  - cbn [fst snd].
    destruct (addToGroup_spec k t m) as (m1 & E1 & Ha & Hother & Hsz).
    destruct (addToGroup_keys k t m m1 E1) as [Hk Hh].
    rewrite E1.
    destruct (IH m1) as (m' & -> & Hg' & Hh' & Hs' & Hk').
    exists m'. split; [reflexivity|].
    split; [|split; [|split]].
    + intros k0. rewrite Hg'. cbn [filter map fst].
      destruct (String.eqb_spec k k0) as [->|Hne].
      * unfold groupOf at 1. rewrite Ha. cbn [map snd].
        now rewrite <- app_assoc.
      * unfold groupOf. now rewrite (Hother k0 Hne).
    + intros k0. rewrite Hh', Hh. cbn [map existsb fst].
      now rewrite orb_assoc.
    + rewrite Hs', Hsz. cbn [List.length]. lia.
    + rewrite Hk', Hk. cbn [map fst firstSeen filter].
      destruct (JSMap.has k m) eqn:Eh; cbn [negb].
      * f_equal. rewrite filter_filter_and. apply filter_ext_eq.
        intros k0. rewrite Hh.
        destruct (String.eqb_spec k0 k) as [->|Hne];
          [now rewrite Eh | now rewrite orb_false_r, andb_true_r].
      * rewrite <- app_assoc. cbn [app]. do 2 f_equal.
        rewrite filter_filter_and. apply filter_ext_eq.
        intros k0. rewrite Hh. apply negb_orb.
Qed.

Lemma firstSeen_In (k : string) (ks : list string) :
  In k (firstSeen ks) <-> In k ks.
Proof.
  induction ks as [|a ks IH]; cbn [firstSeen]; [reflexivity|].
  cbn [In]. rewrite filter_In, IH.
  destruct (String.eqb_spec k a) as [->|Hne]; cbn; intuition congruence.
Qed.

Lemma firstSeen_NoDup (ks : list string) : NoDup (firstSeen ks).
Proof.
  induction ks as [|a ks IH]; cbn [firstSeen]; constructor.
  - rewrite filter_In, String.eqb_refl. cbn. intros [_ H]. discriminate.
  - now apply NoDup_filter.
Qed.

Lemma keyPairs_group (key : Task -> string) (k : string) (tasks : list Task) :
  map snd (filter (fun kt => String.eqb (fst kt) k) (keyPairs key tasks))
  = withKey key k tasks.
Proof.
  unfold keyPairs, withKey.
  induction tasks as [|t l IH]; cbn; [reflexivity|].
  destruct (String.eqb (key t) k); cbn; now rewrite IH.
Qed.

Lemma existsb_eqb_In (k : string) (ks : list string) :
  existsb (String.eqb k) ks = true <-> In k ks.
Proof.
  rewrite existsb_exists. split.
  - intros (x & Hx & E). apply String.eqb_eq in E. now subst.
  - intros H. exists k. split; [exact H | apply String.eqb_refl].
Qed.

(** A grouping with one key per task, from the empty mapping. *)
Lemma group_by_key (key : Task -> string) (tasks : list Task) :
  exists grouped : JSMap.t,
    filePairs (keyPairs key tasks) JSMap.empty = Some grouped
    /\ (forall k, groupOf k grouped = withKey key k tasks)
    /\ (forall k, JSMap.has k grouped = true
                 <-> exists t, In t tasks /\ key t = k)
    /\ JSMap.size_sum grouped = List.length tasks
    /\ keysOf grouped = firstSeen (map key tasks).
Proof.
  destruct (filePairs_spec (keyPairs key tasks) JSMap.empty)
    as (grouped & E & Hg & Hh & Hs & Hk).
  exists grouped. split; [exact E|].
  split; [intros k; now rewrite Hg, keyPairs_group|].
  split.
  { intros k. rewrite Hh. cbn [JSMap.has JSMap.get JSMap.empty orb].
    rewrite existsb_eqb_In. unfold keyPairs. rewrite map_map. cbn [fst].
    rewrite in_map_iff. split; intros (t & H1 & H2); exists t; auto. }
  split.
  { rewrite Hs. unfold keyPairs. cbn. now rewrite length_map. }
  rewrite Hk. cbn [keysOf JSMap.empty map app].
  rewrite filter_true. unfold keyPairs. now rewrite map_map.
Qed.

Lemma filePairs_no_empty_group (pairs : list (string * Task))
    (grouped : JSMap.t) (k : string) :
  filePairs pairs JSMap.empty = Some grouped ->
  JSMap.has k grouped = true -> groupOf k grouped <> [].
Proof.
  intros E Hk.
  destruct (filePairs_spec pairs JSMap.empty) as (m' & E' & Hg & Hh & _).
  rewrite E in E'. injection E' as <-.
  rewrite Hh in Hk. cbn [JSMap.has JSMap.get JSMap.empty orb] in Hk.
  apply existsb_eqb_In, in_map_iff in Hk as ([k' t] & Hfst & Hin).
  cbn [fst] in Hfst. subst k'.
  rewrite Hg. cbn [groupOf JSMap.get JSMap.empty app].
  intros Hnil.
  assert (Ht : In t (map snd
                       (filter (fun kt => String.eqb (fst kt) k) pairs))).
  { apply in_map_iff. exists (k, t). split; [reflexivity|].
    apply filter_In. split; [exact Hin | apply String.eqb_refl]. }
  rewrite Hnil in Ht. contradiction.
Qed.

(** ** Grouping by repository and by status *)

Lemma groupByRepository_filePairs (tasks : list Task) :
  groupByRepository tasks
  = filePairs (keyPairs repositoryKey tasks) JSMap.empty.
Proof.
  unfold groupByRepository, filePairs, keyPairs.
  rewrite for_of_map. reflexivity.
Qed.

Lemma groupByStatus_filePairs (tasks : list Task) :
  groupByStatus tasks = filePairs (keyPairs statusKey tasks) JSMap.empty.
Proof.
  unfold groupByStatus, filePairs, keyPairs.
  rewrite for_of_map. reflexivity.
Qed.

Lemma withKey_In (key : Task -> string) (k : string) (t : Task)
    (tasks : list Task) :
  In t (withKey key k tasks) <-> In t tasks /\ key t = k.
Proof. unfold withKey. now rewrite filter_In, String.eqb_eq. Qed.

(** X1.  [groupByRepository] never throws and splits the collection:
    the group of a key holds the tasks of that repository key in
    collection order, every task is in the group of its key and in no
    other, no group is empty, and the group sizes add up to the size
    of the collection. *)
Theorem groupByRepository_partition (tasks : list Task) :
  exists grouped : JSMap.t,
    groupByRepository tasks = Some grouped
    /\ (forall k, groupOf k grouped = withKey repositoryKey k tasks)
    /\ (forall t k, In t (groupOf k grouped)
                   <-> In t tasks /\ repositoryKey t = k)
    /\ (forall k, JSMap.has k grouped = true
                 <-> exists t, In t tasks /\ repositoryKey t = k)
    /\ (forall k, JSMap.has k grouped = true -> groupOf k grouped <> [])
    /\ JSMap.size_sum grouped = List.length tasks.
Proof.
  rewrite groupByRepository_filePairs.
  destruct (group_by_key repositoryKey tasks)
    as (grouped & E & Hg & Hh & Hs & _).
  exists grouped. split; [exact E|].
  split; [exact Hg|].
  split; [intros t k; rewrite Hg; apply withKey_In|].
  split; [exact Hh|].
  split; [|exact Hs].
  intros k. now apply (filePairs_no_empty_group _ _ _ E).
Qed.

(** X2.  The keys of the mapping of [groupByRepository] are the
    repository keys of the collection, each once, in the order in
    which they are first seen. *)
Theorem groupByRepository_key_order (tasks : list Task) :
  exists grouped : JSMap.t,
    groupByRepository tasks = Some grouped
    /\ keysOf grouped = firstSeen (map repositoryKey tasks)
    /\ NoDup (keysOf grouped)
    /\ (forall k, In k (keysOf grouped) <-> In k (map repositoryKey tasks)).
Proof.
  rewrite groupByRepository_filePairs.
  destruct (group_by_key repositoryKey tasks)
    as (grouped & E & _ & _ & _ & Hk).
  exists grouped. split; [exact E|]. rewrite Hk.
  split; [reflexivity|].
  split; [apply firstSeen_NoDup | intros k; apply firstSeen_In].
Qed.

(** X3.  Under the key "unknown" [groupByRepository] files the tasks
    without repository together with the tasks whose repository name
    is empty and the tasks of a repository called "unknown". *)
Theorem groupByRepository_unknown_group (tasks : list Task) :
  exists grouped : JSMap.t,
    groupByRepository tasks = Some grouped
    /\ groupOf "unknown" grouped = filter inUnknownRepository tasks.
Proof.
  rewrite groupByRepository_filePairs.
  destruct (group_by_key repositoryKey tasks) as (grouped & E & Hg & _).
  exists grouped. split; [exact E|].
  rewrite Hg. unfold withKey. apply filter_ext_eq. intros t.
  unfold repositoryKey, inUnknownRepository.
  destruct (repository t) as [s|]; [|reflexivity].
  destruct (String.eqb_spec s "") as [->|_]; reflexivity.
Qed.

(** X4.  [groupByStatus] never throws and splits the collection by
    status key: a group holds the tasks of its key in collection
    order, no group is empty, the sizes add up to the size of the
    collection, and the keys stand in first-seen order. *)
Theorem groupByStatus_partition (tasks : list Task) :
  exists grouped : JSMap.t,
    groupByStatus tasks = Some grouped
    /\ (forall k, groupOf k grouped = withKey statusKey k tasks)
    /\ (forall t k, In t (groupOf k grouped)
                   <-> In t tasks /\ statusKey t = k)
    /\ (forall k, JSMap.has k grouped = true -> groupOf k grouped <> [])
    /\ JSMap.size_sum grouped = List.length tasks
    /\ keysOf grouped = firstSeen (map statusKey tasks).
Proof.
  rewrite groupByStatus_filePairs.
  destruct (group_by_key statusKey tasks)
    as (grouped & E & Hg & Hh & Hs & Hk).
  exists grouped. split; [exact E|].
  split; [exact Hg|].
  split; [intros t k; rewrite Hg; apply withKey_In|].
  split; [|split; [exact Hs | exact Hk]].
  intros k. now apply (filePairs_no_empty_group _ _ _ E).
Qed.

(** X5.  Under the key "no-status" [groupByStatus] files the tasks
    without status together with the tasks whose status is empty and
    the tasks whose status is called "no-status". *)
Theorem groupByStatus_no_status_group (tasks : list Task) :
  exists grouped : JSMap.t,
    groupByStatus tasks = Some grouped
    /\ groupOf "no-status" grouped = filter hasNoStatus tasks.
Proof.
  rewrite groupByStatus_filePairs.
  destruct (group_by_key statusKey tasks) as (grouped & E & Hg & _).
  exists grouped. split; [exact E|].
  rewrite Hg. unfold withKey. apply filter_ext_eq. intros t.
  unfold statusKey, hasNoStatus.
  destruct (status t) as [s|]; [|reflexivity].
  destruct (String.eqb_spec s "") as [->|_]; reflexivity.
Qed.

(** ** Grouping by assignee: the keys *)

Lemma groupByAssignee_filePairs (tasks : list Task) :
  groupByAssignee tasks = filePairs (assigneePairs tasks) JSMap.empty.
Proof.
  unfold groupByAssignee, filePairs, assigneePairs.
  generalize JSMap.empty.
  induction tasks as [|t l IH]; intros m; cbn [for_of flat_map];
    [reflexivity|].
  rewrite groupByAssignee_body, for_of_app, for_of_map. cbn [fst snd].
  destruct (for_of (groupKeys t)
              (fun grouped assignee => addToGroup assignee t grouped) m);
    [apply IH | reflexivity].
Qed.

Lemma assigneePairs_keys (tasks : list Task) :
  map fst (assigneePairs tasks) = flat_map groupKeys tasks.
Proof.
  unfold assigneePairs.
  induction tasks as [|t l IH]; cbn [flat_map map]; [reflexivity|].
  rewrite map_app, IH, map_map. cbn [fst]. now rewrite map_id.
Qed.

(** X6.  The keys of the mapping of [groupByAssignee] are the keys of
    the tasks, "unassigned" for a task without assignees and its
    assignees otherwise, each once and in first-seen order; no group
    is empty. *)
Theorem groupByAssignee_key_order (tasks : list Task) :
  exists grouped : JSMap.t,
    groupByAssignee tasks = Some grouped
    /\ keysOf grouped = firstSeen (flat_map groupKeys tasks)
    /\ NoDup (keysOf grouped)
    /\ (forall k, JSMap.has k grouped = true -> groupOf k grouped <> []).
Proof.
  rewrite groupByAssignee_filePairs.
  destruct (filePairs_spec (assigneePairs tasks) JSMap.empty)
    as (grouped & E & _ & _ & _ & Hk).
  exists grouped. split; [exact E|].
  assert (Hk' : keysOf grouped = firstSeen (flat_map groupKeys tasks)).
  { rewrite Hk. cbn [keysOf JSMap.empty map app].
    now rewrite filter_true, assigneePairs_keys. }
  split; [exact Hk'|].
  split; [rewrite Hk'; apply firstSeen_NoDup|].
  intros k. now apply (filePairs_no_empty_group _ _ _ E).
Qed.

(* ================================================================= *)
(** ** Segregation and the counts of the snapshot *)

Lemma open_closed_split (tasks : list Task) :
  Permutation (filter isOpen tasks ++ filter isClosed tasks) tasks.
Proof.
  induction tasks as [|t l IH]; [constructor|].
  cbn [filter]. unfold isOpen at 1, isClosed at 1.
  destruct (state t); cbn [TaskState_eqb orb app].
  - now constructor.
  - apply Permutation_sym, Permutation_cons_app, Permutation_sym, IH.
  - apply Permutation_sym, Permutation_cons_app, Permutation_sym, IH.
Qed.

(** X7.  [segregateTasks] splits the collection in two: [open] is
    the list of the OPEN tasks and [closed] the list of the CLOSED or
    MERGED tasks, each in collection order; every task is in exactly
    one part, and the sizes of the parts are the [open] and [closed]
    counts of [calculateStats]. *)
Theorem segregateTasks_partition (LocalTZA : TimeZone) (tasks : list Task)
    (c : Clock) :
  let parts := segregateTasks tasks in
  let snapshot := fst (calculateStats LocalTZA tasks c) in
  Segregated.open parts = filter (fun t => negb (isDone t)) tasks
  /\ Segregated.closed parts = filter isDone tasks
  /\ Permutation (Segregated.open parts ++ Segregated.closed parts) tasks
  /\ (forall t, In t (Segregated.open parts)
               <-> In t tasks /\ state t = OPEN)
  /\ (forall t, In t (Segregated.closed parts)
               <-> In t tasks /\ state t <> OPEN)
  /\ (forall t, ~ (In t (Segregated.open parts)
                  /\ In t (Segregated.closed parts)))
  /\ List.length (Segregated.open parts) = open snapshot
  /\ List.length (Segregated.closed parts) = closed snapshot
  /\ (List.length (Segregated.open parts)
      + List.length (Segregated.closed parts) = List.length tasks)%nat.
Proof.
  cbv zeta. rewrite calculateStats_run.
  unfold segregateTasks. cbn [Segregated.open Segregated.closed open closed].
  change (fun t : Task => TaskState_eqb (state t) OPEN) with isOpen.
  change (fun t : Task =>
            TaskState_eqb (state t) CLOSED || TaskState_eqb (state t) MERGED)
    with isClosed.
  pose proof (open_closed_split tasks) as HP.
  assert (HO : forall t, In t (filter isOpen tasks)
                         <-> In t tasks /\ state t = OPEN).
  { intros t. rewrite filter_In. unfold isOpen.
    destruct (state t); cbn; intuition congruence. }
  assert (HC : forall t, In t (filter isClosed tasks)
                         <-> In t tasks /\ state t <> OPEN).
  { intros t. rewrite filter_In. unfold isClosed.
    destruct (state t); cbn; intuition congruence. }
  split.
  { apply filter_ext_eq. intros t. unfold isOpen, isDone.
    now destruct (state t). }
  split.
  { apply filter_ext_eq. intros t. unfold isClosed, isDone.
    now destruct (state t). }
  split; [exact HP|].
  split; [exact HO|].
  split; [exact HC|].
  split.
  { intros t [H1 H2]. apply HO in H1. apply HC in H2. tauto. }
  split; [reflexivity|].
  split; [reflexivity|].
  apply Permutation_length in HP. now rewrite length_app in HP.
Qed.

Lemma isOverdue_true (LocalTZA : TimeZone) (t : Task) (c : Clock) :
  fst (isOverdue LocalTZA t c) = true ->
  state t = OPEN /\ dueDate t <> None.
Proof.
  unfold isOverdue, bind, ret.
  destruct (dueDate t); [|discriminate].
  destruct (state t); cbn; intros H; try discriminate.
  split; [reflexivity | discriminate].
Qed.

Lemma filterM_isOverdue_In (LocalTZA : TimeZone) (tasks : list Task) :
  forall c t,
    In t (fst (filterM (isOverdue LocalTZA) tasks c)) ->
    In t tasks /\ state t = OPEN /\ dueDate t <> None.
Proof.
  induction tasks as [|a l IH]; intros c t; cbn [filterM];
    [intros []|].
  unfold bind, ret.
  pose proof (isOverdue_true LocalTZA a c) as Ha.
  destruct (isOverdue LocalTZA a c) as [b c1]. cbn [fst] in Ha.
  specialize (IH c1 t).
  destruct (filterM (isOverdue LocalTZA) l c1) as [r c2]. cbn [fst] in *.
  destruct b; cbn [In].
  - intros [<-|H]; [specialize (Ha eq_refl); tauto|].
    apply IH in H. tauto.
  - intros H. apply IH in H. tauto.
Qed.

Lemma overdue_and_no_ETA_among_open (LocalTZA : TimeZone) (tasks : list Task) :
  forall c,
    (List.length (fst (filterM (isOverdue LocalTZA) tasks c))
     + List.length (filter isNoTechHandoffETA tasks)
     <= List.length (filter isOpen tasks))%nat.
Proof.
  induction tasks as [|a l IH]; intros c; cbn [filterM filter];
    [cbn; lia|].
  unfold bind, ret.
  pose proof (isOverdue_true LocalTZA a c) as Ha.
  destruct (isOverdue LocalTZA a c) as [b c1]. cbn [fst] in Ha.
  specialize (IH c1).
  destruct (filterM (isOverdue LocalTZA) l c1) as [r c2]. cbn [fst] in *.
  unfold isNoTechHandoffETA at 1, isOpen at 1, JS.not_date.
  destruct b.
  - destruct (Ha eq_refl) as [-> Hd].
    destruct (dueDate a); [|congruence]. cbn. lia.
  - destruct (state a), (dueDate a); cbn; lia.
Qed.

(** X8.  Whatever the clock reads, the snapshot counts satisfy
    [overdue + noTechHandoffETA <= open <= total]: an overdue task
    has a due date and a task without ETA has none, and both are
    OPEN. *)
Theorem calculateStats_count_bounds (LocalTZA : TimeZone) (tasks : list Task)
    (c : Clock) :
  let snapshot := fst (calculateStats LocalTZA tasks c) in
  (overdue snapshot + noTechHandoffETA snapshot <= open snapshot)%nat
  /\ (open snapshot <= total snapshot)%nat
  /\ (forall t, ~ (In t (overdueList snapshot)
                  /\ In t (noTechHandoffETAList snapshot))).
Proof.
  cbv zeta. rewrite calculateStats_run. cbn.
  split; [apply overdue_and_no_ETA_among_open|].
  split; [apply filter_length_le|].
  intros t [H1 H2].
  apply filterM_isOverdue_In in H1 as (_ & _ & Hd).
  apply filter_In in H2 as [_ H2].
  unfold isNoTechHandoffETA, JS.not_date in H2.
  destruct (dueDate t); [|congruence].
  now rewrite andb_false_r in H2.
Qed.

(** X9.  A task that is CLOSED or MERGED is in none of the lists of
    the snapshot, and every task in one of the lists is an OPEN task
    of the collection. *)
Theorem calculateStats_lists_hold_open_tasks (LocalTZA : TimeZone)
    (tasks : list Task) (c : Clock) (t : Task) :
  let snapshot := fst (calculateStats LocalTZA tasks c) in
  let noETA := noTechHandoffETAByPriority snapshot in
  let unassigned := unassignedByPriority snapshot in
  In t (overdueList snapshot ++ noTechHandoffETAList snapshot
        ++ p0List noETA ++ p1List noETA ++ noPriorityList noETA
        ++ p0List unassigned ++ p1List unassigned
        ++ noPriorityList unassigned) ->
  In t tasks /\ state t = OPEN.
Proof.
  cbv zeta. rewrite calculateStats_run. cbn.
  assert (HE : forall x, In x (filter isNoTechHandoffETA tasks) ->
                         In x tasks /\ state x = OPEN).
  { intros x Hx. apply filter_In in Hx as [Hin Hx]. split; [exact Hin|].
    unfold isNoTechHandoffETA in Hx. destruct (state x); cbn in Hx;
      congruence. }
  assert (HU : forall x, In x (filter isUnassigned tasks) ->
                         In x tasks /\ state x = OPEN).
  { intros x Hx. apply filter_In in Hx as [Hin Hx]. split; [exact Hin|].
    unfold isUnassigned in Hx. destruct (state x); cbn in Hx; congruence. }
  rewrite !in_app_iff.
  intros [H|[H|[H|[H|[H|[H|[H|H]]]]]]].
  - apply filterM_isOverdue_In in H. tauto.
  - apply HE, H.
  - apply filter_In in H as [H _]. apply HE, H.
  - apply filter_In in H as [H _]. apply HE, H.
  - apply filter_In in H as [H _]. apply HE, H.
  - apply filter_In in H as [H _]. apply HU, H.
  - apply filter_In in H as [H _]. apply HU, H.
  - apply filter_In in H as [H _]. apply HU, H.
Qed.

Lemma calculateStats_lists_hold_open_tasks_witness :
  In (sampleTask "undated" OPEN [] None nov1 None) (hd [] sampleStore)
  /\ state (sampleTask "undated" OPEN [] None nov1 None) = OPEN.
Proof.
  apply (calculateStats_lists_hold_open_tasks utc (hd [] sampleStore)
           (frozen nov2)).
  vm_compute. right. left. reflexivity.
Defined.

(* ================================================================= *)
(** ** Overdue tasks as time goes by *)

Lemma YearFromDay_mono (d1 d2 : Z) :
  d1 <= d2 -> YearFromDay d1 <= YearFromDay d2.
Proof.
  intros H.
  pose proof (YearFromDay_bounds d1) as [Hlo1 _].
  pose proof (YearFromDay_bounds d2) as [_ Hhi2].
  destruct (Z_le_gt_dec (YearFromDay d1) (YearFromDay d2)) as [|Hgt];
    [assumption|].
  pose proof (DayFromYear_mono (YearFromDay d2 + 1) (YearFromDay d1)
                ltac:(lia)).
  lia.
Qed.

Section HostDays.
Variable LocalTZA : TimeZone.
Hypothesis advance : daysAdvance LocalTZA.
Hypothesis cover : daysCoverTime LocalTZA.

(** A local day has begun at an instant exactly when the instant is
    not before the start of the day. *)
Lemma day_reached (d t : Z) :
  (d <=? localDay LocalTZA t) = (dayStart LocalTZA d <=? t).
Proof.
  destruct (cover t) as [Hlo Hhi].
  destruct (Z.leb_spec d (localDay LocalTZA t)) as [Hle|Hgt]; symmetry.
  - apply Z.leb_le.
    destruct (Z.eq_dec d (localDay LocalTZA t)) as [->|Hne]; [exact Hlo|].
    pose proof (advance d (localDay LocalTZA t) ltac:(lia)). lia.
  - apply Z.leb_gt.
    destruct (Z.eq_dec (localDay LocalTZA t + 1) d) as [<-|Hne]; [exact Hhi|].
    pose proof (advance (localDay LocalTZA t + 1) d ltac:(lia)). lia.
Qed.

(** The local day never goes back. *)
Lemma localDay_mono (a b : Z) :
  a <= b -> localDay LocalTZA a <= localDay LocalTZA b.
Proof.
  intros H.
  pose proof (day_reached (localDay LocalTZA a) a) as Ha.
  pose proof (day_reached (localDay LocalTZA a) b) as Hb.
  rewrite Z.leb_refl in Ha. symmetry in Ha. apply Z.leb_le in Ha.
  apply Z.leb_le. rewrite Hb. apply Z.leb_le. lia.
Qed.

Lemma getFullYear_mono (a b : Z) :
  a <= b -> getFullYear LocalTZA a <= getFullYear LocalTZA b.
Proof.
  intros H. unfold getFullYear, YearFromTime.
  apply YearFromDay_mono. now apply localDay_mono.
Qed.

(** With the clock in the year 2000 or later, an OPEN task with a due
    date is overdue exactly from the start of the local day of its due
    date on. *)
Lemma isOverdue_from_day_start (task : Task) (due : Date) (c : Clock) :
  dueDate task = Some due -> state task = OPEN ->
  2000 <= getFullYear LocalTZA (c 0%nat) ->
  fst (isOverdue LocalTZA task c)
  = (dayStart LocalTZA (localDay LocalTZA due) <=? c 0%nat).
Proof.
  intros Hd Hs Hy.
  rewrite (isOverdue_open LocalTZA task due c Hd Hs).
  rewrite (compare_days LocalTZA due (c 0%nat) advance Hy).
  apply day_reached.
Qed.
End HostDays.

Lemma newYork2025_daysCoverTime : daysCoverTime newYork2025.
Proof.
  intros t.
  unfold dayStart, UTC, localDay, LocalTime, Day, newYork2025,
    dstStart2025, dstEnd2025, nov2, msPerHour, msPerDay.
  destruct (Z.leb_spec (1762041600000 - 238 * 86400000 + 7 * 3600000) t);
    destruct (Z.ltb_spec t (1762041600000 + 6 * 3600000)); cbn [andb];
    match goal with
    | |- context [(?x + ?o) / 86400000] =>
        pose proof (Z.div_mod (x + o) 86400000 ltac:(lia));
        pose proof (Z.mod_pos_bound (x + o) 86400000 ltac:(lia));
        set (day := (x + o) / 86400000) in *
    end;
    repeat match goal with
           | |- context [(?a <=? ?b) && (?c <? ?d)] =>
               destruct (Z.leb_spec a b); destruct (Z.ltb_spec c d);
               cbn [andb]
           end; lia.
Qed.

(** A host whose offset never changes is such a host too. *)
Lemma fixedOffset_days (offset : Z) :
  daysAdvance (fixedOffset offset) /\ daysCoverTime (fixedOffset offset).
Proof.
  split.
  - intros d1 d2 H. unfold dayStart, UTC, fixedOffset, msPerDay. lia.
  - intros t. unfold dayStart, UTC, localDay, LocalTime, Day, fixedOffset,
      msPerDay.
    pose proof (Z.div_mod (t + offset) 86400000 ltac:(lia)).
    pose proof (Z.mod_pos_bound (t + offset) 86400000 ltac:(lia)).
    lia.
Qed.

(** X10.  Once overdue, a task stays overdue.  On a host where a
    later local day starts at a later instant and every instant lies
    within its local day, if the clock reads a time in the year 2000
    or later and the task is overdue then, it is overdue at every
    later reading. *)
Theorem isOverdue_stays (LocalTZA : TimeZone) (task : Task) (c c' : Clock) :
  daysAdvance LocalTZA ->
  daysCoverTime LocalTZA ->
  2000 <= getFullYear LocalTZA (c 0%nat) ->
  c 0%nat <= c' 0%nat ->
  fst (isOverdue LocalTZA task c) = true ->
  fst (isOverdue LocalTZA task c') = true.
Proof.
  intros Hadv Hcov Hy Hle H.
  destruct (isOverdue_true LocalTZA task c H) as [Hs Hd].
  destruct (dueDate task) as [due|] eqn:Ed; [|congruence].
  pose proof (getFullYear_mono LocalTZA Hadv Hcov _ _ Hle) as Hy'.
  rewrite (isOverdue_from_day_start LocalTZA Hadv Hcov task due c Ed Hs Hy)
    in H.
  rewrite (isOverdue_from_day_start LocalTZA Hadv Hcov task due c' Ed Hs)
    by lia.
  apply Z.leb_le in H. apply Z.leb_le. lia.
Qed.

(** On the New York host a task due on 1 November 2025 is overdue one
    hour before the clocks are set back on 2 November, and one hour
    after. *)
Lemma isOverdue_stays_witness :
  fst (isOverdue newYork2025
         (sampleTask "due-yesterday" OPEN [] None nov1 (Some nov1))
         (frozen (nov2 + 7 * msPerHour))) = true.
Proof.
  apply (isOverdue_stays newYork2025 _ (frozen (nov2 + 5 * msPerHour))
           (frozen (nov2 + 7 * msPerHour))).
  - exact newYork2025_daysAdvance.
  - exact newYork2025_daysCoverTime.
  - vm_compute. discriminate.
  - vm_compute. discriminate.
  - reflexivity.
Defined.

(** X11.  On such a host, with the clock in the year 2000 or later,
    an OPEN task with a due date is overdue exactly when the clock has
    reached the start of the local calendar day of the due date; so a
    task whose due instant has come is overdue. *)
Theorem isOverdue_from_start_of_due_day (LocalTZA : TimeZone) (task : Task)
    (due : Date) (c : Clock) :
  daysAdvance LocalTZA ->
  daysCoverTime LocalTZA ->
  dueDate task = Some due ->
  state task = OPEN ->
  2000 <= getFullYear LocalTZA (c 0%nat) ->
  fst (isOverdue LocalTZA task c)
  = (dayStart LocalTZA (localDay LocalTZA due) <=? c 0%nat)
  /\ (due <= c 0%nat -> fst (isOverdue LocalTZA task c) = true).
Proof.
  intros Hadv Hcov Hd Hs Hy.
  rewrite (isOverdue_from_day_start LocalTZA Hadv Hcov task due c Hd Hs Hy).
  split; [reflexivity|].
  intros Hle. apply Z.leb_le.
  destruct (Hcov due) as [Hlo _]. lia.
Qed.

(** On the New York host, on the 25-hour day on which daylight saving
    ends: at 0:30 a task due at 23:30 of the same local day, 24 hours
    later, is overdue, the day having started at 4:00 UTC. *)
Lemma isOverdue_from_start_of_due_day_witness :
  let now := nov2 + 4 * msPerHour + 1800000 in
  let due := now + msPerDay in
  let task := sampleTask "due-tonight" OPEN [] None nov1 (Some due) in
  dayStart newYork2025 (localDay newYork2025 due) = nov2 + 4 * msPerHour
  /\ fst (isOverdue newYork2025 task (frozen now))
     = (dayStart newYork2025 (localDay newYork2025 due) <=? frozen now 0%nat)
  /\ fst (isOverdue newYork2025 task (frozen now)) = true.
Proof.
  cbv zeta.
  destruct (isOverdue_from_start_of_due_day newYork2025
              (sampleTask "due-tonight" OPEN [] None nov1
                 (Some (nov2 + 4 * msPerHour + 1800000 + msPerDay)))
              (nov2 + 4 * msPerHour + 1800000 + msPerDay)
              (frozen (nov2 + 4 * msPerHour + 1800000))
              newYork2025_daysAdvance newYork2025_daysCoverTime
              eq_refl eq_refl) as [H _].
  - vm_compute. discriminate.
  - split; [reflexivity|]. split; [exact H | reflexivity].
Defined.

(* ================================================================= *)
(** ** Sorting by creation date, sorting twice, sorting and filtering *)

Lemma compareCreationDate_total (ascending : bool) (a b : Task) :
  compareCreationDate ascending a b <= 0
  \/ compareCreationDate ascending b a <= 0.
Proof. unfold compareCreationDate, getTime. destruct ascending; lia. Qed.

Lemma compareCreationDate_trans (ascending : bool) (a b c : Task) :
  compareCreationDate ascending a b <= 0 ->
  compareCreationDate ascending b c <= 0 ->
  compareCreationDate ascending a c <= 0.
Proof. unfold compareCreationDate, getTime. destruct ascending; lia. Qed.

Lemma compareCreationDate_same_time (ascending : bool) (d : Date)
    (a b : Task) :
  createdAtTime d a = true -> createdAtTime d b = true ->
  compareCreationDate ascending a b <= 0.
Proof.
  unfold compareCreationDate, createdAtTime, getTime.
  intros Ha Hb. apply Z.eqb_eq in Ha, Hb. destruct ascending; lia.
Qed.

Lemma sorted_createdAt (ascending : bool) (l : list Task) :
  StronglySorted (notAfter (compareCreationDate ascending)) l ->
  StronglySorted (dueOrder ascending) (map createdAt l).
Proof.
  induction 1 as [|a l Hs IH Ha]; cbn [map]; constructor; [exact IH|].
  apply Forall_map. eapply Forall_impl; [|exact Ha].
  intros b Hb. unfold notAfter, compareCreationDate, getTime in Hb.
  unfold dueOrder. destruct ascending; lia.
Qed.

(** What a sort of a copy leaves in the store. *)
Lemma store_after_sort (s : Store.t) (elems sorted : list Task) :
  let copy := List.length s in
  let s' := Store.write copy sorted (s ++ [elems]) in
  Store.read copy s' = Some sorted
  /\ (forall r, Store.read r s <> None -> Store.read r s' = Store.read r s).
Proof.
  cbv zeta.
  pose proof (Store_read_alloc_new elems s) as Hnew.
  unfold Store.alloc in Hnew. cbn [fst snd] in Hnew.
  split.
  - apply Store_read_write_same. congruence.
  - intros r Hr.
    assert (List.length s <> r).
    { apply nth_error_Some in Hr. lia. }
    rewrite Store_read_write_other by assumption.
    apply (Store_read_alloc_old r elems s Hr).
Qed.

Lemma sortByCreationDate_run (s : Store.t) (tasks : Store.Ref)
    (ascending : option bool) (elems : list Task) :
  Store.read tasks s = Some elems ->
  sortByCreationDate tasks ascending s
  = Some (List.length s,
          Store.write (List.length s)
            (Array_sort
               (compareCreationDate
                  match ascending with Some b => b | None => false end)
               elems)
            (s ++ [elems])).
Proof.
  intros Hread. unfold sortByCreationDate. rewrite Hread.
  unfold Store.alloc.
  pose proof (Store_read_alloc_new elems s) as Hnew.
  unfold Store.alloc in Hnew. cbn [fst snd] in Hnew.
  now rewrite Hnew.
Qed.

Lemma sortByDueDate_run (s : Store.t) (tasks : Store.Ref)
    (ascending : option bool) (elems : list Task) :
  Store.read tasks s = Some elems ->
  sortByDueDate tasks ascending s
  = Some (List.length s,
          Store.write (List.length s)
            (Array_sort
               (compareDueDate
                  match ascending with Some b => b | None => true end)
               elems)
            (s ++ [elems])).
Proof.
  intros Hread. unfold sortByDueDate. rewrite Hread.
  unfold Store.alloc.
  pose proof (Store_read_alloc_new elems s) as Hnew.
  unfold Store.alloc in Hnew. cbn [fst snd] in Hnew.
  now rewrite Hnew.
Qed.

Lemma fresh_reference (s : Store.t) (r : Store.Ref) :
  Store.read r s <> None ->
  Store.read (List.length s) s = None /\ List.length s <> r.
Proof.
  intros Hr. split.
  - apply nth_error_None. lia.
  - apply nth_error_Some in Hr. lia.
Qed.

(** X12.  [sortByCreationDate] returns a new array, one that was not
    in the store before and is not the caller's, and leaves the
    caller's array and every other array as they were.  The new array
    holds the same tasks ordered by creation time, latest first when
    the flag is false or left out and earliest first otherwise; tasks
    created at the same time keep their input order. *)
Theorem sortByCreationDate_spec (s : Store.t) (tasks : Store.Ref)
    (ascending : option bool) (elems : list Task) :
  Store.read tasks s = Some elems ->
  let direction := match ascending with Some b => b | None => false end in
  exists (copy : Store.Ref) (s' : Store.t) (result : list Task),
    sortByCreationDate tasks ascending s = Some (copy, s')
    /\ Store.read copy s = None
    /\ copy <> tasks
    /\ Store.read copy s' = Some result
    /\ Permutation result elems
    /\ StronglySorted (dueOrder direction) (map createdAt result)
    /\ (forall d, filter (createdAtTime d) result
                 = filter (createdAtTime d) elems)
    /\ Store.read tasks s' = Some elems
    /\ (forall r, Store.read r s <> None -> Store.read r s' = Store.read r s).
Proof.
  intros Hread direction.
  destruct (store_after_sort s elems
              (Array_sort (compareCreationDate direction) elems))
    as [Hnew Hkeep].
  destruct (fresh_reference s tasks ltac:(congruence)) as [Hfresh Hne].
  eexists _, _, _.
  split; [apply (sortByCreationDate_run s tasks ascending elems Hread)|].
  split; [exact Hfresh|].
  split; [exact Hne|].
  split; [exact Hnew|].
  split; [apply Array_sort_perm|].
  split.
  { apply sorted_createdAt, Array_sort_sorted.
    - apply compareCreationDate_total.
    - apply compareCreationDate_trans. }
  split.
  { intros d. apply Array_sort_stable. apply compareCreationDate_same_time. }
  split; [|exact Hkeep].
  rewrite Hkeep by congruence. exact Hread.
Qed.

(** The array of [createdStore], sorted latest first. *)
Lemma sortByCreationDate_spec_witness :
  exists (copy : Store.Ref) (s' : Store.t) (result : list Task),
    sortByCreationDate 0%nat None createdStore = Some (copy, s')
    /\ Store.read copy createdStore = None
    /\ copy <> 0%nat
    /\ Store.read copy s' = Some result
    /\ Permutation result (hd [] createdStore)
    /\ StronglySorted (dueOrder false) (map createdAt result)
    /\ (forall d, filter (createdAtTime d) result
                 = filter (createdAtTime d) (hd [] createdStore))
    /\ Store.read 0%nat s' = Some (hd [] createdStore)
    /\ (forall r, Store.read r createdStore <> None ->
                  Store.read r s' = Store.read r createdStore).
Proof.
  apply (sortByCreationDate_spec createdStore 0%nat None (hd [] createdStore)).
  reflexivity.
Defined.

(** A sorted list is sorted into itself. *)
Lemma Array_sort_sorted_id (compareFn : Task -> Task -> Z) (l : list Task) :
  StronglySorted (notAfter compareFn) l -> Array_sort compareFn l = l.
Proof.
  induction 1 as [|a l Hs IH Ha]; cbn [Array_sort]; [reflexivity|].
  rewrite IH. destruct Ha as [|b l Hb _]; cbn [sort_insert]; [reflexivity|].
  unfold notAfter in Hb. apply Z.leb_le in Hb. now rewrite Hb.
Qed.

(** Two sorts in a row of a copy, for any comparison that is a total
    preorder: what the store holds afterwards. *)
Lemma two_sorts_in_the_store (compareFn : Task -> Task -> Z) (s : Store.t)
    (tasks : Store.Ref) (elems : list Task) :
  (forall a b, compareFn a b <= 0 \/ compareFn b a <= 0) ->
  (forall a b c,
      compareFn a b <= 0 -> compareFn b c <= 0 -> compareFn a c <= 0) ->
  Store.read tasks s = Some elems ->
  let result := Array_sort compareFn elems in
  let r1 := List.length s in
  let s1 := Store.write r1 result (s ++ [elems]) in
  let r2 := List.length s1 in
  let s2 := Store.write r2 (Array_sort compareFn result) (s1 ++ [result]) in
  Store.read r1 s1 = Some result
  /\ Permutation result elems
  /\ r1 <> r2 /\ tasks <> r1 /\ tasks <> r2
  /\ Store.read r1 s2 = Some result
  /\ Store.read r2 s2 = Some result
  /\ (forall r, Store.read r s <> None -> Store.read r s2 = Store.read r s).
Proof.
  intros total trans Hread. cbv zeta.
  set (result := Array_sort compareFn elems).
  destruct (store_after_sort s elems result) as [H1 Hkeep1].
  set (s1 := Store.write (List.length s) result (s ++ [elems])) in *.
  destruct (store_after_sort s1 result (Array_sort compareFn result))
    as [H2 Hkeep2].
  assert (Hid : Array_sort compareFn result = result).
  { apply Array_sort_sorted_id, Array_sort_sorted; assumption. }
  rewrite Hid in *.
  destruct (fresh_reference s tasks ltac:(congruence)) as [_ Hne1].
  destruct (fresh_reference s1 (List.length s) ltac:(congruence))
    as [_ Hne2].
  assert (Ht1 : Store.read tasks s1 = Some elems)
    by (rewrite Hkeep1 by congruence; exact Hread).
  destruct (fresh_reference s1 tasks ltac:(congruence)) as [_ Hne3].
  split; [exact H1|].
  split; [apply Array_sort_perm|].
  split; [congruence|].
  split; [congruence|].
  split; [congruence|].
  split; [rewrite Hkeep2 by congruence; exact H1|].
  split; [exact H2|].
  intros r Hr. rewrite Hkeep2; [now apply Hkeep1|].
  rewrite Hkeep1 by exact Hr. exact Hr.
Qed.

(** X13.  Sorting the result of a sort again, in the same direction,
    gives a further new array with the tasks in the same order and
    leaves the first result, the caller's array and every array that
    was there before as they were; this holds for
    [sortByCreationDate] and for [sortByDueDate]. *)
Theorem sorting_twice_keeps_the_order (s : Store.t) (tasks : Store.Ref)
    (ascending : option bool) (elems : list Task) :
  Store.read tasks s = Some elems ->
  (exists r1 s1 r2 s2 result,
     sortByCreationDate tasks ascending s = Some (r1, s1)
     /\ sortByCreationDate r1 ascending s1 = Some (r2, s2)
     /\ Store.read r1 s1 = Some result
     /\ Permutation result elems
     /\ r1 <> r2 /\ tasks <> r1 /\ tasks <> r2
     /\ Store.read r1 s2 = Some result
     /\ Store.read r2 s2 = Some result
     /\ (forall r, Store.read r s <> None ->
                   Store.read r s2 = Store.read r s))
  /\ (exists r1 s1 r2 s2 result,
        sortByDueDate tasks ascending s = Some (r1, s1)
        /\ sortByDueDate r1 ascending s1 = Some (r2, s2)
        /\ Store.read r1 s1 = Some result
        /\ Permutation result elems
        /\ r1 <> r2 /\ tasks <> r1 /\ tasks <> r2
        /\ Store.read r1 s2 = Some result
        /\ Store.read r2 s2 = Some result
        /\ (forall r, Store.read r s <> None ->
                      Store.read r s2 = Store.read r s)).
Proof.
  intros Hread. split.
  - set (cmp := compareCreationDate
                  match ascending with Some b => b | None => false end).
    pose proof (two_sorts_in_the_store cmp s tasks elems
                  (compareCreationDate_total _) (compareCreationDate_trans _)
                  Hread) as H.
    cbv zeta in H. destruct H as (H1 & H).
    eexists _, _, _, _, _.
    split; [apply (sortByCreationDate_run s tasks ascending elems Hread)|].
    split; [apply (sortByCreationDate_run _ _ ascending _ H1)|].
    split; [exact H1|]. exact H.
  - set (cmp := compareDueDate
                  match ascending with Some b => b | None => true end).
    pose proof (two_sorts_in_the_store cmp s tasks elems
                  (compareDueDate_total _) (compareDueDate_trans _)
                  Hread) as H.
    cbv zeta in H. destruct H as (H1 & H).
    eexists _, _, _, _, _.
    split; [apply (sortByDueDate_run s tasks ascending elems Hread)|].
    split; [apply (sortByDueDate_run _ _ ascending _ H1)|].
    split; [exact H1|]. exact H.
Qed.

Lemma sorting_twice_keeps_the_order_witness :
  (exists r1 s1 r2 s2 result,
     sortByCreationDate 0%nat (Some true) createdStore = Some (r1, s1)
     /\ sortByCreationDate r1 (Some true) s1 = Some (r2, s2)
     /\ Store.read r1 s1 = Some result
     /\ Permutation result (hd [] createdStore)
     /\ r1 <> r2 /\ 0%nat <> r1 /\ 0%nat <> r2
     /\ Store.read r1 s2 = Some result
     /\ Store.read r2 s2 = Some result
     /\ (forall r, Store.read r createdStore <> None ->
                   Store.read r s2 = Store.read r createdStore))
  /\ (exists r1 s1 r2 s2 result,
        sortByDueDate 0%nat (Some true) createdStore = Some (r1, s1)
        /\ sortByDueDate r1 (Some true) s1 = Some (r2, s2)
        /\ Store.read r1 s1 = Some result
        /\ Permutation result (hd [] createdStore)
        /\ r1 <> r2 /\ 0%nat <> r1 /\ 0%nat <> r2
        /\ Store.read r1 s2 = Some result
        /\ Store.read r2 s2 = Some result
        /\ (forall r, Store.read r createdStore <> None ->
                      Store.read r s2 = Store.read r createdStore)).
Proof.
  apply (sorting_twice_keeps_the_order createdStore 0%nat (Some true)
           (hd [] createdStore)).
  reflexivity.
Defined.

Lemma Permutation_filter_same {A} (p : A -> bool) (l l' : list A) :
  Permutation l l' -> Permutation (filter p l) (filter p l').
Proof.
  induction 1 as [|x l l' _ IH|x y l|l l' l'' _ IH1 _ IH2]; cbn [filter].
  - constructor.
  - destruct (p x); [now constructor | exact IH].
  - destruct (p x), (p y); try reflexivity. apply perm_swap.
  - now transitivity (filter p l').
Qed.

Lemma StronglySorted_filter {A} (R : A -> A -> Prop) (p : A -> bool)
    (l : list A) :
  StronglySorted R l -> StronglySorted R (filter p l).
Proof.
  induction 1 as [|a l Hs IH Ha]; cbn [filter]; [constructor|].
  destruct (p a); [|exact IH].
  constructor; [exact IH|].
  rewrite Forall_forall in *. intros x Hx.
  apply filter_In in Hx as [Hx _]. now apply Ha.
Qed.

(** For a comparison that is a total preorder, sorting what a filter
    keeps is keeping it from the sorted list. *)
Lemma Array_sort_filter (compareFn : Task -> Task -> Z) (p : Task -> bool)
    (l : list Task) :
  (forall a b, compareFn a b <= 0 \/ compareFn b a <= 0) ->
  (forall a b c,
      compareFn a b <= 0 -> compareFn b c <= 0 -> compareFn a c <= 0) ->
  Array_sort compareFn (filter p l) = filter p (Array_sort compareFn l).
Proof.
  intros total trans. symmetry.
  apply (Array_sort_determined compareFn total trans).
  - apply Permutation_filter_same, Array_sort_perm.
  - apply StronglySorted_filter, Array_sort_sorted; assumption.
  - intros x. rewrite !filter_filter_and.
    rewrite (filter_ext_eq (fun y => tied compareFn x y && p y)
               (fun y => p y && tied compareFn x y))
      by (intros y; apply andb_comm).
    rewrite (filter_ext_eq (fun y => tied compareFn x y && p y)
               (fun y => p y && tied compareFn x y) l)
      by (intros y; apply andb_comm).
    rewrite <- !filter_filter_and. f_equal.
    apply Array_sort_stable.
    intros a b Ha Hb. unfold tied in *.
    apply andb_prop in Ha as [_ Ha]. apply andb_prop in Hb as [Hb _].
    apply Z.leb_le in Ha, Hb. eauto.
Qed.

Lemma filterByDateRange_filter (tasks : list Task)
    (startDate endDate : option Date) :
  filterByDateRange tasks startDate endDate
  = filter (inDateRange startDate endDate) tasks.
Proof.
  unfold filterByDateRange. apply filter_ext_eq. intros t.
  unfold inDateRange.
  destruct startDate as [s|], endDate as [e|]; cbn [andb];
    rewrite ?Z.gtb_ltb;
    repeat match goal with
           | |- context [?a <? ?b] => destruct (Z.ltb_spec a b)
           | |- context [?a <=? ?b] => destruct (Z.leb_spec a b)
           end; cbn; try reflexivity; lia.
Qed.

(** X14.  Filtering by creation date and sorting by creation date
    can be done in either order: sorting the filtered array gives the
    list that filtering the sorted array gives. *)
Theorem filter_and_sort_commute (s : Store.t) (tasks : Store.Ref)
    (ascending : option bool) (startDate endDate : option Date)
    (elems : list Task) :
  Store.read tasks s = Some elems ->
  exists r1 s1 sorted r2 s2,
    sortByCreationDate tasks ascending s = Some (r1, s1)
    /\ Store.read r1 s1 = Some sorted
    /\ sortByCreationDate
         (fst (Store.alloc (filterByDateRange elems startDate endDate) s))
         ascending
         (snd (Store.alloc (filterByDateRange elems startDate endDate) s))
       = Some (r2, s2)
    /\ Store.read r2 s2 = Some (filterByDateRange sorted startDate endDate).
Proof.
  intros Hread.
  set (cmp := compareCreationDate
                match ascending with Some b => b | None => false end).
  set (kept := filterByDateRange elems startDate endDate).
  destruct (store_after_sort s elems (Array_sort cmp elems)) as [H1 _].
  pose proof (Store_read_alloc_new kept s) as Hf.
  destruct (store_after_sort (snd (Store.alloc kept s)) kept
              (Array_sort cmp kept)) as [H2 _].
  eexists _, _, _, _, _.
  split; [apply (sortByCreationDate_run s tasks ascending elems Hread)|].
  split; [exact H1|].
  split; [apply (sortByCreationDate_run _ _ ascending kept Hf)|].
  fold cmp. rewrite H2. f_equal.
  subst kept. rewrite !filterByDateRange_filter.
  apply Array_sort_filter.
  - apply compareCreationDate_total.
  - apply compareCreationDate_trans.
Qed.

Lemma filter_and_sort_commute_witness :
  exists r1 s1 sorted r2 s2,
    sortByCreationDate 0%nat None sampleStore = Some (r1, s1)
    /\ Store.read r1 s1 = Some sorted
    /\ sortByCreationDate
         (fst (Store.alloc
                 (filterByDateRange (hd [] sampleStore) (Some nov1) None)
                 sampleStore))
         None
         (snd (Store.alloc
                 (filterByDateRange (hd [] sampleStore) (Some nov1) None)
                 sampleStore))
       = Some (r2, s2)
    /\ Store.read r2 s2 = Some (filterByDateRange sorted (Some nov1) None).
Proof.
  apply (filter_and_sort_commute sampleStore 0%nat None (Some nov1) None
           (hd [] sampleStore)).
  reflexivity.
Defined.

(* ================================================================= *)
(** ** Filtering twice *)

(** X15.  Two date-range filters in a row keep the tasks that each of
    them keeps, whatever their order, and a filter applied to its own
    result changes nothing. *)
Theorem filterByDateRange_twice (tasks : list Task)
    (start1 end1 start2 end2 : option Date) :
  filterByDateRange (filterByDateRange tasks start1 end1) start2 end2
  = filterByDateRange (filterByDateRange tasks start2 end2) start1 end1
  /\ (forall t,
        In t (filterByDateRange (filterByDateRange tasks start1 end1)
                start2 end2)
        <-> In t (filterByDateRange tasks start1 end1)
            /\ In t (filterByDateRange tasks start2 end2))
  /\ filterByDateRange (filterByDateRange tasks start1 end1) start1 end1
     = filterByDateRange tasks start1 end1.
Proof.
  rewrite !filterByDateRange_filter. split; [|split].
  - rewrite !filter_filter_and. apply filter_ext_eq.
    intros t. apply andb_comm.
  - intros t. rewrite !filter_In. tauto.
  - rewrite filter_filter_and. apply filter_ext_eq.
    intros t. now destruct (inDateRange start1 end1 t).
Qed.

(** X16.  When the end bound lies before the start bound,
    [filterByDateRange] keeps nothing. *)
Theorem filterByDateRange_inverted_bounds (tasks : list Task)
    (startDate endDate : Date) :
  endDate < startDate ->
  filterByDateRange tasks (Some startDate) (Some endDate) = [].
Proof.
  intros H. rewrite filterByDateRange_filter.
  induction tasks as [|t l IH]; [reflexivity|].
  cbn [filter]. rewrite IH. unfold inDateRange.
  destruct (Z.leb_spec startDate (createdAt t));
    destruct (Z.leb_spec (createdAt t) endDate); cbn; try reflexivity; lia.
Qed.

Lemma filterByDateRange_inverted_bounds_witness :
  filterByDateRange (hd [] sampleStore) (Some nov3) (Some nov1) = [].
Proof.
  apply filterByDateRange_inverted_bounds. vm_compute. reflexivity.
Defined.


(* ================================================================= *)
(** ** The summary report *)

Lemma JSObject_define_new (k : string) (v : nat) (o : JSObject.t) :
  ~ In k (map fst o) -> JSObject.define k v o = o ++ [(k, v)].
Proof.
  induction o as [|[k' v'] o IH]; cbn; intros H; [reflexivity|].
  destruct (String.eqb_spec k' k) as [->|Hne]; [tauto|].
  rewrite IH by tauto. reflexivity.
Qed.

(** The object built from a mapping with pairwise different keys. *)
Lemma countsByKey_fold (m : JSMap.t) :
  forall o : JSObject.t,
    NoDup (map fst o ++ keysOf m) ->
    fold_left
      (fun o entry => JSObject.set (fst entry) (List.length (snd entry)) o)
      m o
    = o ++ map countEntry (filter notProto m).
Proof.
  induction m as [|[k v] m IH]; intros o Hnd; cbn [fold_left filter map].
  - now rewrite app_nil_r.
  - cbn [keysOf map fst] in Hnd. unfold JSObject.set, notProto. cbn [fst snd].
    destruct (String.eqb k "__proto__"); cbn [negb].
    + apply IH. now apply NoDup_remove_1 in Hnd.
    + pose proof (NoDup_remove_2 _ _ _ Hnd) as Hk.
      rewrite JSObject_define_new
        by (intros Hin; apply Hk, in_or_app; now left).
      rewrite IH.
      * rewrite <- app_assoc. reflexivity.
      * rewrite map_app, <- app_assoc. exact Hnd.
Qed.

Lemma countsByKey_entries (m : JSMap.t) :
  NoDup (keysOf m) -> countsByKey m = map countEntry (filter notProto m).
Proof. intros H. unfold countsByKey. now rewrite countsByKey_fold. Qed.

Lemma countEntries_get (k : string) (m : JSMap.t) :
  JSObject.get k (map countEntry (filter notProto m))
  = if String.eqb k "__proto__" then None
    else option_map (@List.length Task) (JSMap.get k m).
Proof.
  induction m as [|[k' v] m IH]; cbn [filter map JSMap.get].
  - now destruct (String.eqb k "__proto__").
  - unfold notProto at 1. cbn [fst].
    destruct (String.eqb_spec k' "__proto__") as [->|Hp]; cbn [negb].
    + rewrite IH. rewrite (String.eqb_sym "__proto__" k).
      now destruct (String.eqb k "__proto__").
    + cbn [map JSObject.get countEntry fst snd].
      destruct (String.eqb_spec k' k) as [->|Hne]; [|exact IH].
      destruct (String.eqb_spec k "__proto__"); [contradiction | reflexivity].
Qed.

Lemma countEntries_sum (m : JSMap.t) :
  NoDup (keysOf m) ->
  (JSObject.sum (map countEntry (filter notProto m))
   + List.length (groupOf "__proto__" m) = JSMap.size_sum m)%nat.
Proof.
  unfold JSObject.sum, groupOf.
  induction m as [|[k v] m IH]; intros Hnd; cbn [filter map]; [reflexivity|].
  cbn [keysOf map fst] in Hnd. apply NoDup_cons_iff in Hnd as [Hk Hnd].
  specialize (IH Hnd). unfold notProto at 1. cbn [fst JSMap.get JSMap.size_sum].
  destruct (String.eqb_spec k "__proto__") as [->|Hp]; cbn [negb].
  - assert (E : JSMap.get "__proto__" m = None).
    { pose proof (has_keysOf "__proto__" m) as Hh. unfold JSMap.has in Hh.
      destruct (JSMap.get "__proto__" m); [|reflexivity].
      symmetry in Hh. apply existsb_eqb_In in Hh. contradiction. }
    rewrite E in IH. cbn [List.length] in IH. lia.
  - cbn [map countEntry fst snd].
    change (list_sum (?x :: ?r)) with (x + list_sum r)%nat. lia.
Qed.

(** The report object of a grouping. *)
Lemma countsByKey_of_grouping (pairs : list (string * Task))
    (grouped : JSMap.t) :
  filePairs pairs JSMap.empty = Some grouped ->
  (forall k, k <> "__proto__"%string ->
             JSObject.get k (countsByKey grouped)
             = countOrAbsent (groupOf k grouped))
  /\ JSObject.get "__proto__" (countsByKey grouped) = None
  /\ (JSObject.sum (countsByKey grouped)
      + List.length (groupOf "__proto__" grouped) = List.length pairs)%nat.
Proof.
  intros E.
  destruct (filePairs_spec pairs JSMap.empty) as (m' & E' & _ & _ & Hs & Hk).
  rewrite E in E'. injection E' as <-.
  assert (Hnd : NoDup (keysOf grouped)).
  { rewrite Hk. cbn [keysOf JSMap.empty map app].
    rewrite filter_true. apply firstSeen_NoDup. }
  rewrite (countsByKey_entries grouped Hnd).
  split; [|split].
  - intros k Hne. rewrite countEntries_get.
    destruct (String.eqb_spec k "__proto__"); [contradiction|].
    pose proof (filePairs_no_empty_group pairs grouped k E) as Hne'.
    unfold groupOf, JSMap.has in *.
    destruct (JSMap.get k grouped) as [[|t l]|]; cbn; try reflexivity.
    now specialize (Hne' eq_refl).
  - rewrite countEntries_get. reflexivity.
  - rewrite (countEntries_sum grouped Hnd), Hs. reflexivity.
Qed.

(** X17.  [getSummaryReport] never throws.  Its [stats] are those of
    [calculateStats]; for every key other than "__proto__" the three
    objects hold the number of tasks of the key's group and no entry
    when there is no such task; the key "__proto__" has no entry. *)
Theorem getSummaryReport_counts (LocalTZA : TimeZone) (tasks : list Task)
    (c : Clock) :
  exists report : SummaryReport,
    fst (getSummaryReport LocalTZA tasks c) = Some report
    /\ stats report = fst (calculateStats LocalTZA tasks c)
    /\ (forall k, k <> "__proto__"%string ->
          JSObject.get k (byRepository report)
          = countOrAbsent (withKey repositoryKey k tasks)
          /\ JSObject.get k (byStatus report)
             = countOrAbsent (withKey statusKey k tasks)
          /\ JSObject.get k (byAssignee report)
             = countOrAbsent (expectedGroup k tasks))
    /\ JSObject.get "__proto__" (byRepository report) = None
    /\ JSObject.get "__proto__" (byStatus report) = None
    /\ JSObject.get "__proto__" (byAssignee report) = None.
Proof.
  unfold getSummaryReport, bind, ret.
  destruct (calculateStats LocalTZA tasks c) as [st c'] eqn:Ec.
  cbn [fst].
  destruct (group_by_key repositoryKey tasks) as (gr & Er & Hgr & _).
  destruct (group_by_key statusKey tasks) as (gs & Es & Hgs & _).
  destruct (groupByAssignee_loop tasks JSMap.empty) as (ga & Ea & Hga & _).
  fold (groupByAssignee tasks) in Ea.
  rewrite groupByRepository_filePairs, Er, Ea, groupByStatus_filePairs, Es.
  rewrite groupByAssignee_filePairs in Ea.
  destruct (countsByKey_of_grouping _ _ Er) as (Hr1 & Hr2 & _).
  destruct (countsByKey_of_grouping _ _ Es) as (Hs1 & Hs2 & _).
  destruct (countsByKey_of_grouping _ _ Ea) as (Ha1 & Ha2 & _).
  eexists. split; [reflexivity|].
  cbn [stats byRepository byStatus byAssignee].
  split; [reflexivity|].
  split; [|auto].
  intros k Hk.
  rewrite (Hr1 k Hk), (Hs1 k Hk), (Ha1 k Hk), Hgr, Hgs, Hga.
  auto.
Qed.

(** X18.  The counts of [byRepository] and those of [byStatus] add up
    to the size of the collection, and the counts of [byAssignee] to
    the sum of [max(1, assignees.length)], less in each case the
    tasks filed under the key "__proto__", which the object drops. *)
Theorem getSummaryReport_sums (LocalTZA : TimeZone) (tasks : list Task)
    (c : Clock) :
  exists report : SummaryReport,
    fst (getSummaryReport LocalTZA tasks c) = Some report
    /\ (JSObject.sum (byRepository report)
        + List.length (withKey repositoryKey "__proto__" tasks)
        = total (stats report))%nat
    /\ (JSObject.sum (byStatus report)
        + List.length (withKey statusKey "__proto__" tasks)
        = total (stats report))%nat
    /\ (JSObject.sum (byAssignee report)
        + List.length (expectedGroup "__proto__" tasks)
        = fanOut tasks)%nat.
Proof.
  unfold getSummaryReport, bind, ret.
  pose proof (calculateStats_run LocalTZA tasks c) as Hrun.
  destruct (calculateStats LocalTZA tasks c) as [st c'] eqn:Ec.
  cbn [fst] in *.
  destruct (group_by_key repositoryKey tasks) as (gr & Er & Hgr & _).
  destruct (group_by_key statusKey tasks) as (gs & Es & Hgs & _).
  destruct (groupByAssignee_loop tasks JSMap.empty)
    as (ga & Ea & Hga & _ & Hsa).
  fold (groupByAssignee tasks) in Ea.
  rewrite groupByRepository_filePairs, Er, Ea, groupByStatus_filePairs, Es.
  rewrite groupByAssignee_filePairs in Ea.
  destruct (countsByKey_of_grouping _ _ Er) as (_ & _ & Hr).
  destruct (countsByKey_of_grouping _ _ Es) as (_ & _ & Hs).
  destruct (countsByKey_of_grouping _ _ Ea) as (_ & _ & Ha).
  eexists. split; [reflexivity|].
  cbn [stats byRepository byStatus byAssignee].
  rewrite Hrun. cbn [total].
  rewrite Hgr in Hr. rewrite Hgs in Hs. rewrite Hga in Ha.
  unfold keyPairs in Hr, Hs. rewrite length_map in Hr, Hs.
  split; [exact Hr|]. split; [exact Hs|].
  cbn [groupOf JSMap.get JSMap.empty app] in Ha. rewrite Ha.
  destruct (filePairs_spec (assigneePairs tasks) JSMap.empty)
    as (m' & E' & _ & _ & Hsz & _).
  rewrite Ea in E'. injection E' as <-.
  cbn in Hsz, Hsa. lia.
Qed.


(* ================================================================= *)
(** ** Pagination of the task table *)

Lemma firstn_plus {A} (a b : nat) (l : list A) :
  firstn (a + b) l = firstn a l ++ firstn b (skipn a l).
Proof.
  revert l. induction a as [|a IH]; intros l; [reflexivity|].
  destruct l as [|x l]; cbn [Nat.add firstn skipn app].
  - now rewrite firstn_nil.
  - now rewrite IH.
Qed.

(** A page that starts at a valid index is a run of the list. *)
Lemma paginatedTasks_run {A} (l : list A) (p : nat) (n : positive) :
  TasksTable.paginatedTasks l (Z.of_nat p + 1) n
  = firstn (Pos.to_nat n) (skipn (p * Pos.to_nat n) l).
Proof.
  unfold TasksTable.paginatedTasks, TasksTable.slice. cbv zeta.
  set (len := List.length l).
  replace (Z.of_nat p + 1 - 1) with (Z.of_nat p) by lia.
  assert (Hs : 0 <= Z.of_nat p * Z.pos n) by lia.
  destruct (Z.ltb_spec (Z.of_nat p * Z.pos n) 0); [lia|].
  destruct (Z.ltb_spec (Z.of_nat p * Z.pos n + Z.pos n) 0); [lia|].
  destruct (Nat.le_gt_cases len (p * Pos.to_nat n)) as [Hout|Hin].
  - rewrite (skipn_all2 l) by (fold len; lia).
    rewrite (skipn_all2 l) by (fold len; lia).
    now rewrite !firstn_nil.
  - replace (Z.to_nat (Z.min (Z.of_nat p * Z.pos n) (Z.of_nat len)))
      with (p * Pos.to_nat n)%nat by lia.
    set (rest := skipn (p * Pos.to_nat n) l).
    assert (Hrest : List.length rest = (len - p * Pos.to_nat n)%nat)
      by (subst rest; apply length_skipn).
    destruct (Nat.le_gt_cases (Pos.to_nat n) (List.length rest)) as [Hfull|Hpart].
    + f_equal. lia.
    + rewrite (firstn_all2 (n := Pos.to_nat n)) by lia.
      apply firstn_all2. lia.
Qed.

Lemma pages_concat {A} (l : list A) (n : positive) (k : nat) :
  List.concat (map (fun i => firstn (Pos.to_nat n) (skipn (i * Pos.to_nat n) l))
            (seq 0 k))
  = firstn (k * Pos.to_nat n) l.
Proof.
  induction k as [|k IH]; [reflexivity|].
  rewrite seq_S, map_app, concat_app, IH. cbn [map List.concat Nat.add].
  rewrite app_nil_r, <- firstn_plus. f_equal. lia.
Qed.

Lemma totalPages_bounds {A} (l : list A) (n : positive) :
  let pages := TasksTable.totalPages l n in
  0 <= pages
  /\ (pages - 1) * Z.pos n < Z.of_nat (List.length l) + Z.b2z (pages =? 0)
  /\ Z.of_nat (List.length l) <= pages * Z.pos n.
Proof.
  cbv zeta. unfold TasksTable.totalPages.
  set (len := Z.of_nat (List.length l)).
  assert (0 <= len) by (subst len; lia).
  pose proof (Z.div_mod (len + Z.pos n - 1) (Z.pos n) ltac:(lia)) as Hdm.
  pose proof (Z.mod_pos_bound (len + Z.pos n - 1) (Z.pos n) ltac:(lia)) as Hm.
  set (q := (len + Z.pos n - 1) / Z.pos n) in *.
  assert (0 <= q) by (subst q; apply Z.div_pos; lia).
  destruct (Z.eqb_spec q 0) as [E|E]; cbn [Z.b2z]; nia.
Qed.

(** X19.  The pages of the task table tile the sorted list: the pages
    from 1 to [totalPages], one after the other, are the list; each of
    them holds at least one and at most [itemsPerPage] tasks, each but
    the last holds [itemsPerPage]; a page after the last is empty, and
    there is no page exactly when the list is empty. *)
Theorem pages_tile_the_list {A} (sortedTasks : list A)
    (itemsPerPage : positive) :
  let pages := TasksTable.totalPages sortedTasks itemsPerPage in
  List.concat
    (map (fun p => TasksTable.paginatedTasks sortedTasks p itemsPerPage)
       (TasksTable.pagesUpTo pages))
  = sortedTasks
  /\ (forall p, 1 <= p <= pages ->
        let page := TasksTable.paginatedTasks sortedTasks p itemsPerPage in
        (1 <= List.length page <= Pos.to_nat itemsPerPage)%nat
        /\ (p < pages -> List.length page = Pos.to_nat itemsPerPage))
  /\ (forall p, pages < p ->
        TasksTable.paginatedTasks sortedTasks p itemsPerPage = [])
  /\ (pages = 0 <-> sortedTasks = []).
Proof.
  cbv zeta.
  destruct (totalPages_bounds sortedTasks itemsPerPage) as (H0 & Hlo & Hhi).
  set (pages := TasksTable.totalPages sortedTasks itemsPerPage) in *.
  set (n := Pos.to_nat itemsPerPage).
  assert (Hn : Z.of_nat n = Z.pos itemsPerPage) by (subst n; lia).
  split; [|split; [|split]].
  - unfold TasksTable.pagesUpTo. rewrite map_map.
    rewrite (map_ext _ (fun i => firstn n (skipn (i * n) sortedTasks)))
      by (intros i; apply paginatedTasks_run).
    unfold n. rewrite pages_concat. apply firstn_all2. fold n. nia.
  - intros p Hp.
    replace p with (Z.of_nat (Z.to_nat (p - 1)) + 1) by lia.
    rewrite paginatedTasks_run. fold n.
    rewrite length_firstn, length_skipn.
    destruct (Z.eqb_spec pages 0); [lia|]. cbn [Z.b2z] in Hlo.
    split; [nia|]. intros Hlt. nia.
  - intros p Hp. destruct (Z.le_gt_cases 1 p) as [H1|H1].
    + replace p with (Z.of_nat (Z.to_nat (p - 1)) + 1) by lia.
      rewrite paginatedTasks_run. fold n.
      rewrite skipn_all2; [apply firstn_nil | nia].
    + lia.
  - destruct (Z.eqb_spec pages 0) as [E|E]; cbn [Z.b2z] in Hlo.
    + split; [intros _|intros _; exact E].
      destruct sortedTasks; [reflexivity | cbn in Hhi; lia].
    + split; [lia|]. intros ->. cbn in Hlo. nia.
Qed.

(** X20.  The pagination bar is shown exactly when the table is not
    in its overdue-only mode and there is more than one page.  When it
    is shown and the current page is among the pages, the numbered
    buttons are [min(5, totalPages)] consecutive page numbers, all of
    them pages and the current page among them; First, Previous, Next
    and Last lead to pages; and Previous and Next, when not disabled,
    lead to the page before and the page after the current one. *)
Theorem pagination_bar_leads_to_pages (showOverdueOnly : bool)
    (totalPages currentPage : Z) :
  (TasksTable.paginationBar showOverdueOnly totalPages currentPage = None
   <-> showOverdueOnly = true \/ totalPages <= 1)
  /\ (forall bar,
        TasksTable.paginationBar showOverdueOnly totalPages currentPage
        = Some bar ->
        1 <= currentPage <= totalPages ->
        (exists start,
            TasksTable.numbered bar
            = map (fun i => start + Z.of_nat i)
                (seq 0 (Z.to_nat (Z.min 5 totalPages)))
            /\ 1 <= start
            /\ start + Z.min 5 totalPages - 1 <= totalPages)
        /\ In currentPage (TasksTable.numbered bar)
        /\ (forall p, In p (TasksTable.numbered bar) -> 1 <= p <= totalPages)
        /\ 1 <= TasksTable.first bar <= totalPages
        /\ 1 <= TasksTable.previous bar <= totalPages
        /\ 1 <= TasksTable.next bar <= totalPages
        /\ 1 <= TasksTable.last bar <= totalPages
        /\ (TasksTable.previousDisabled bar = false ->
            TasksTable.previous bar = currentPage - 1)
        /\ (TasksTable.nextDisabled bar = false ->
            TasksTable.next bar = currentPage + 1)).
Proof.
  unfold TasksTable.paginationBar.
  destruct showOverdueOnly; cbn [negb andb].
  { split; [split; [now left | reflexivity] | discriminate]. }
  destruct (Z.gtb_spec totalPages 1) as [Hgt|Hle].
  2:{ split; [split; [right; lia | reflexivity] | discriminate]. }
  split.
  { split; [discriminate | intros [H|H]; [discriminate | lia]]. }
  intros bar E Hc. injection E as <-.
  cbn [TasksTable.numbered TasksTable.first TasksTable.previous
       TasksTable.next TasksTable.last TasksTable.previousDisabled
       TasksTable.nextDisabled].
  set (start := TasksTable.pageNum totalPages currentPage 0).
  assert (Hnum : forall i, 0 <= i < Z.min 5 totalPages ->
            TasksTable.pageNum totalPages currentPage i = start + i
            /\ 1 <= start /\ start + Z.min 5 totalPages - 1 <= totalPages
            /\ start <= currentPage <= start + Z.min 5 totalPages - 1).
  { intros i Hi. subst start. unfold TasksTable.pageNum.
    destruct (Z.leb_spec totalPages 5); [lia|].
    destruct (Z.leb_spec currentPage 3); [lia|].
    rewrite Z.geb_leb.
    destruct (Z.leb_spec (totalPages - 2) currentPage); lia. }
  assert (Hlist :
            map (fun i => TasksTable.pageNum totalPages currentPage
                            (Z.of_nat i))
              (seq 0 (Z.to_nat (Z.min 5 totalPages)))
            = map (fun i => start + Z.of_nat i)
                (seq 0 (Z.to_nat (Z.min 5 totalPages)))).
  { apply map_ext_in. intros i Hi. apply in_seq in Hi.
    apply Hnum. lia. }
  rewrite Hlist.
  destruct (Hnum 0 ltac:(lia)) as (_ & Hs1 & Hs2 & Hs3).
  assert (Hin : forall p,
            In p (map (fun i => start + Z.of_nat i)
                    (seq 0 (Z.to_nat (Z.min 5 totalPages))))
            <-> start <= p <= start + Z.min 5 totalPages - 1).
  { intros p. rewrite in_map_iff. split.
    - intros (i & <- & Hi). apply in_seq in Hi. lia.
    - intros Hp. exists (Z.to_nat (p - start)). split; [lia|].
      apply in_seq. lia. }
  split; [exists start; auto|].
  split; [apply Hin; lia|].
  split; [intros p Hp; apply Hin in Hp; lia|].
  repeat split; lia.
Qed.

(** Page 7 of 9, and the table with a single page. *)
Lemma pagination_bar_leads_to_pages_witness :
  TasksTable.paginationBar false 1 1 = None
  /\ exists bar,
       TasksTable.paginationBar false 9 7 = Some bar
       /\ TasksTable.numbered bar = [5; 6; 7; 8; 9]
       /\ In 7 (TasksTable.numbered bar)
       /\ TasksTable.previous bar = 7 - 1
       /\ TasksTable.next bar = 7 + 1.
Proof.
  split; [reflexivity|].
  eexists. split; [reflexivity|].
  destruct (proj2 (pagination_bar_leads_to_pages false 9 7) _ eq_refl
              ltac:(lia))
    as (_ & Hin & _ & _ & _ & _ & _ & Hprev & Hnext).
  split; [reflexivity|].
  split; [exact Hin|].
  split; [exact (Hprev eq_refl) | exact (Hnext eq_refl)].
Defined.
